(** * megaman: the Geometry store and the eigen-decomposition engine

    A shallow embedding of [megaman/geometry/geometry.py] and
    [megaman/utils/eigendecomp.py].

    Numbers.  Python floats are idealised as exact rationals ([Q]); Python
    integers that are compared are [Z], counts used for slicing are [nat].

    Effects.  Python code raises exceptions, issues warnings, draws from a
    random generator and assigns attributes of [self].  All of that is
    explicit state passing through one small state-and-exception monad
    [M S A]: the state survives a raise, as it does in Python. *)

From Stdlib Require Import ZArith QArith Qabs List String Bool Lia Lqa Sorted Permutation.
From stdpp Require Import gmap strings list fin_maps sorting.
Import ListNotations.

Local Open Scope Z_scope.
Local Open Scope string_scope.
Local Open Scope list_scope.

(** ** Exceptions *)

(** Every [raise ValueError(...)] of the two files, by raise site. *)
Inductive value_error : Type :=
| NoDataMatrix                                   (* geometry.py:115 *)
| NotSquare (which : string)                     (* geometry.py:222,234,246 *)
| UnrecognizedEigenSolver (given : string)       (* eigendecomp.py:37 *)
| AmgNotAvailable                                (* eigendecomp.py:42 *)
| LobpcgRequiresSymmetric                        (* eigendecomp.py:155,176 *)
| NullSpaceArpack (msg : string)                 (* eigendecomp.py:262 *)
| NullSpaceUnrecognized (given : string)         (* eigendecomp.py:311 *)
| InvalidArray (msg : string).                   (* raised by check_array *)

(** What the libraries (numpy, scipy, pyamg) raise. *)
Inductive lib_exn : Type :=
| LinAlgError (msg : string)                     (* numpy.linalg.LinAlgError *)
| RuntimeError (msg : string)                    (* ARPACK failures *)
| OtherError (cls msg : string).

Inductive exn : Type :=
| ValueError (e : value_error)
| FromLibrary (e : lib_exn)
| IndexError
| UnboundLocalError (name : string)
| TypeError (msg : string).

(** [distance_error_msg], geometry.py:41. *)
Definition distance_error_msg : string :=
  "No data matrix exists. Adjacency matrix cannot be computed.".

(** ** The state-and-exception monad *)

Definition M (S A : Type) : Type := S -> (exn + A) * S.

Definition ret {S A} (a : A) : M S A := fun s => (inr a, s).

Definition raise {S A} (e : exn) : M S A := fun s => (inl e, s).

Definition bind {S A B} (m : M S A) (k : A -> M S B) : M S B :=
  fun s => match m s with
           | (inr a, s') => k a s'
           | (inl e, s') => (inl e, s')
           end.

(** [try: m except <those exceptions h accepts>: ...]; an exception the
    handler does not accept propagates. *)
Definition try_except {S A} (m : M S A) (h : exn -> option (M S A)) : M S A :=
  fun s => match m s with
           | (inr a, s') => (inr a, s')
           | (inl e, s') => match h e with
                            | Some k => k s'
                            | None => (inl e, s')
                            end
           end.

Definition get {S} : M S S := fun s => (inr s, s).
Definition modify {S} (f : S -> S) : M S unit := fun s => (inr tt, f s).

(** Lifting a pure fallible step of the code itself. *)
Definition lift {S A} (r : exn + A) : M S A := fun s => (r, s).

(** A call into a library: what it raises propagates. *)
Definition call {S A} (r : lib_exn + A) : M S A :=
  fun s => match r with
           | inl e => (inl (FromLibrary e), s)
           | inr a => (inr a, s)
           end.

(** A call to [check_array]: it raises a [ValueError] with its message. *)
Definition checked {S A} (r : string + A) : M S A :=
  fun s => match r with
           | inl msg => (inl (ValueError (InvalidArray msg)), s)
           | inr a => (inr a, s)
           end.

Declare Scope py_scope.
Delimit Scope py_scope with py.
Notation "x <- m ;; k" := (bind m (fun x => k))
  (at level 100, m at next level, right associativity) : py_scope.
Notation "m ;;; k" := (bind m (fun _ => k))
  (at level 100, right associativity) : py_scope.

(** ** Matrices, vectors and index arithmetic *)

(** A numpy array or scipy sparse matrix, by its dense view.  [issparse] is
    what [sparse.issparse], [sparse.isspmatrix] and [hasattr(M, 'toarray')]
    test; an entry that a sparse layout does not store reads 0. *)
Record matrix : Type := mkMatrix { issparse : bool; rows : list (list Q) }.

Definition vector : Type := list Q.

(** An (N, m) array held by its columns: eigenvectors, initial blocks. *)
Definition columns : Type := list (list Q).

(** [G.shape[0]] *)
Definition shape0 (G : matrix) : nat := length (rows G).

Definition entry (G : matrix) (i j : nat) : Q := nth j (nth i (rows G) []) 0%Q.

(** [G.diagonal()] *)
Definition diagonal (G : matrix) : vector :=
  map (fun i => entry G i i) (seq 0 (shape0 G)).

(** [sparse.identity(n)] *)
Definition identity (n : nat) : matrix :=
  mkMatrix true
    (map (fun i => map (fun j => if Nat.eqb i j then 1%Q else 0%Q) (seq 0 n))
         (seq 0 n)).

(** [A + B]: sparse only when both are. *)
Definition madd (A B : matrix) : matrix :=
  mkMatrix (issparse A && issparse B)
    (zip_with (zip_with Qplus) (rows A) (rows B)).

(** [c * A] *)
Definition mscale (c : Q) (A : matrix) : matrix :=
  mkMatrix (issparse A) (map (map (Qmult c)) (rows A)).

(** [G.todense()], [M.toarray()] *)
Definition todense (G : matrix) : matrix := mkMatrix false (rows G).

Definition Qlt_bool (x y : Q) : bool := negb (Qle_bool y x).

(** [np.sum] *)
Definition np_sum (v : vector) : Q := fold_right Qplus 0%Q v.

(** [np.argsort]: the indices that sort [v] ascending.  Insertion of the
    indices from the last to the first keeps equal keys in index order. *)
Fixpoint insert_by (key : nat -> Q) (i : nat) (l : list nat) : list nat :=
  match l with
  | [] => [i]
  | j :: t => if Qle_bool (key i) (key j) then i :: j :: t
              else j :: insert_by key i t
  end.

Definition argsort (v : vector) : list nat :=
  fold_right (insert_by (fun i => nth i v 0%Q)) [] (seq 0 (length v)).

(** Fancy indexing [v[index]] and [cols[:, index]]. *)
Definition take_idx {A} (d : A) (v : list A) (index : list nat) : list A :=
  map (fun i => nth i v d) index.

(** [l[lo:hi]] for non-negative bounds. *)
Definition slice {A} (lo hi : nat) (l : list A) : list A :=
  firstn (hi - lo) (skipn lo l).

(** [X[:, 0] = d]; an array without columns has no column 0. *)
Definition set_first_column (X : columns) (d : vector) : exn + columns :=
  match X with
  | [] => inl IndexError
  | _ :: cs => inr (d :: cs)
  end.

(** [_is_symmetric(M, tol)], eigendecomp.py:65-70.  On a sparse matrix the
    test runs over the stored entries of [M - M.T]; the entries that are
    not stored are 0 and pass it, so both branches are the test on every
    entry. *)
Definition _is_symmetric (M : matrix) (tol : Q) : bool :=
  let n := shape0 M in
  forallb (fun i =>
    forallb (fun j => Qlt_bool (Qabs (entry M i j - entry M j i)) tol)
            (seq 0 n))
    (seq 0 n).

Definition default_tol : Q := 1 # 100000000.

(** ** The numerical libraries

    scipy, numpy and pyamg are outside the repository.  Their routines are
    the fields of one interface; each can fail.  The general routines
    [eigs] and [eig] are taken through the real parts of what they return,
    so [np.real] is the identity on the model. *)
Class Numerics : Type := {
  (** [PYAMG_LOADED], set at import time (eigendecomp.py:10-14). *)
  PYAMG_LOADED : bool;
  (** [numpy.random.RandomState] *)
  RandomState : Type;
  (** [rs.uniform(lo, hi, n)] and the generator after the draw *)
  uniform : RandomState -> Q -> Q -> nat -> vector * RandomState;
  (** [rs.rand(n, m)] and the generator after the draw *)
  rand : RandomState -> nat -> nat -> columns * RandomState;
  (** [eigsh(A, k, which=, sigma=, tol=, maxiter=, v0=)] *)
  eigsh : matrix -> nat -> string -> option Q -> Q -> option nat ->
          vector -> lib_exn + (vector * columns);
  (** [eigs(A, k, which=, tol=)] *)
  eigs : matrix -> nat -> string -> Q -> lib_exn + (vector * columns);
  (** the multigrid preconditioner pyamg builds *)
  preconditioner : Type;
  (** [smoothed_aggregation_solver(A).aspreconditioner()] *)
  smoothed_aggregation_preconditioner : matrix -> lib_exn + preconditioner;
  (** [lobpcg(A, X, M=, largest=)] *)
  lobpcg : matrix -> columns -> option preconditioner -> bool ->
           lib_exn + (vector * columns);
  (** [eigh(A, eigvals=)] *)
  eigh : matrix -> option (nat * nat) -> lib_exn + (vector * columns);
  (** [eig(A)] *)
  eig : matrix -> lib_exn + (vector * columns);
  (** [check_array(A, accept_sparse=['csr'])] of megaman.utils.validation:
      the array, or the message of the [ValueError] *)
  check_array_csr : matrix -> string + matrix
}.

(** ** eigendecomp.py *)

Module EigenDecomp.

Definition EIGEN_SOLVERS : list string :=
  ["auto"; "dense"; "arpack"; "lobpcg"; "amg"].

(** [x in lst] on strings. *)
Definition str_in (x : string) (l : list string) : bool :=
  existsb (String.eqb x) l.

Definition warning_lobpcg_small : string :=
  "lobpcg does not perform well with small matrices or with large numbers of vectors. Switching to 'dense'".

Definition warning_amg_dense : string :=
  "AMG works better for sparse matrices".

Definition warning_lobpcg_retry : string :=
  "LOBPCG failed the first time. Increasing Pos Def adjustment.".

Section Solver.
Context {N : Numerics}.

(** What the solver code reads and writes besides its arguments: the
    warnings issued so far (latest first) and numpy's global generator. *)
Record world : Type := mkWorld {
  warnings_issued : list string;
  np_random : RandomState
}.

(** [warnings.warn(msg)] *)
Definition warn (msg : string) : M world unit :=
  modify (fun w => mkWorld (msg :: warnings_issued w) (np_random w)).

(** eigendecomp.py:19-62 *)
Definition check_eigen_solver (eigen_solver : string)
    (size nvec : option Z) : M world string :=
  if negb (str_in eigen_solver EIGEN_SOLVERS) then
    raise (ValueError (UnrecognizedEigenSolver eigen_solver))
  else if String.eqb eigen_solver "amg" && negb PYAMG_LOADED then
    raise (ValueError AmgNotAvailable)
  else
    match size, nvec with
    | Some size, Some nvec =>
        if String.eqb eigen_solver "lobpcg" && (size <? 5 * nvec + 1)%Z then
          (warn warning_lobpcg_small ;;; ret "dense")%py
        else if String.eqb eigen_solver "auto" then
          if (size >? 200)%Z && (nvec <? 10)%Z then
            if PYAMG_LOADED then ret "amg" else ret "arpack"
          else ret "dense"
        else ret eigen_solver
    | _, _ => ret eigen_solver
    end.

(** [check_random_state(random_state)]: [None] is numpy's global
    generator, a seed or an instance is a generator of the caller's. *)
Inductive generator : Type :=
| GlobalGenerator
| OwnGenerator (rs : RandomState).

Definition check_random_state (random_state : option RandomState) : generator :=
  match random_state with
  | None => GlobalGenerator
  | Some rs => OwnGenerator rs
  end.

(** A draw advances the generator it is made from; the global one is
    part of the world. *)
Definition draw {A} (g : generator) (sample : RandomState -> A * RandomState)
    : M world A :=
  fun w =>
    match g with
    | GlobalGenerator =>
        let '(a, rs') := sample (np_random w) in
        (inr a, mkWorld (warnings_issued w) rs')
    | OwnGenerator rs => (inr (fst (sample rs)), w)
    end.

(** eigendecomp.py:73-201 *)
Definition eigen_decomposition (G : matrix) (n_components : nat)
    (eigen_solver : string) (random_state : option RandomState)
    (eigen_tol : Q) (drop_first largest : bool)
    : M world (vector * columns) :=
  (let n_nodes := shape0 G in
   let n_components := if drop_first then (n_components + 1)%nat else n_components in
   eigen_solver <- check_eigen_solver eigen_solver
                     (Some (Z.of_nat n_nodes)) (Some (Z.of_nat n_components)) ;;
   let random_state := check_random_state random_state in
   (* lines 126-129: the result of G.tocsr() is dropped; astype(float) *)
   let is_symmetric := _is_symmetric G default_tol in
   if String.eqb eigen_solver "arpack" then
     v0 <- draw random_state (fun rs => uniform rs (-1) 1 (shape0 G)) ;;
     r <- (if is_symmetric then
             let which := if largest then "LM" else "SM" in
             call (eigsh G n_components which None eigen_tol None v0)
           else
             let which := if largest then "LR" else "SR" in
             call (eigs G n_components which eigen_tol)) ;;
     let '(lambdas, diffusion_map) := r in
     ret (lambdas, diffusion_map)
   else if String.eqb eigen_solver "amg" then
     if negb is_symmetric then raise (ValueError LobpcgRequiresSymmetric)
     else
       (if negb (issparse G) then warn warning_amg_dense else ret tt) ;;;
       G_csr <- checked (check_array_csr G) ;;
       M_ <- call (smoothed_aggregation_preconditioner G_csr) ;;
       let n_find := Nat.min n_nodes (5 + 2 * n_components) in
       X <- draw random_state (fun rs => rand rs n_nodes n_find) ;;
       X <- lift (set_first_column X (diagonal G)) ;;
       r <- call (lobpcg G X (Some M_) largest) ;;
       let '(lambdas, diffusion_map) := r in
       let sort_order := argsort lambdas in
       let '(lambdas, diffusion_map) :=
         if largest then
           (take_idx 0%Q lambdas (rev sort_order),
            take_idx [] diffusion_map (rev sort_order))
         else
           (take_idx 0%Q lambdas sort_order,
            take_idx [] diffusion_map sort_order) in
       let lambdas := firstn n_components lambdas in
       let diffusion_map := firstn n_components diffusion_map in
       ret (lambdas, diffusion_map)
   else if String.eqb eigen_solver "lobpcg" then
     if negb is_symmetric then raise (ValueError LobpcgRequiresSymmetric)
     else
       let n_find := Nat.min n_nodes (5 + 2 * n_components) in
       X <- draw random_state (fun rs => rand rs n_nodes n_find) ;;
       r <- call (lobpcg G X None largest) ;;
       let '(lambdas, diffusion_map) := r in
       let sort_order := argsort lambdas in
       let '(lambdas, diffusion_map) :=
         if largest then
           (take_idx 0%Q lambdas (rev sort_order),
            take_idx [] diffusion_map (rev sort_order))
         else
           (take_idx 0%Q lambdas sort_order,
            take_idx [] diffusion_map sort_order) in
       let lambdas := firstn n_components lambdas in
       let diffusion_map := firstn n_components diffusion_map in
       ret (lambdas, diffusion_map)
   else if String.eqb eigen_solver "dense" then
     let G := if issparse G then todense G else G in
     r <- (if is_symmetric then call (eigh G None) else call (eig G)) ;;
     let '(lambdas, diffusion_map) := r in
     let '(lambdas, diffusion_map) :=
       if largest then (rev lambdas, rev diffusion_map)
       else (lambdas, diffusion_map) in
     let lambdas := firstn n_components lambdas in
     let diffusion_map := firstn n_components diffusion_map in
     ret (lambdas, diffusion_map)
   else
     (* no branch binds lambdas: the return statement fails *)
     raise (UnboundLocalError "lambdas"))%py.

(** eigendecomp.py:204-311 *)
Definition null_space (M_ : matrix) (k k_skip : nat) (eigen_solver : string)
    (tol : Q) (max_iter : nat) (random_state : option RandomState)
    : M world (columns * Q) :=
  (eigen_solver <- check_eigen_solver eigen_solver
                     (Some (Z.of_nat (shape0 M_)))
                     (Some (Z.of_nat (k + k_skip))) ;;
   let random_state := check_random_state random_state in
   if String.eqb eigen_solver "arpack" then
     v0 <- draw random_state (fun rs => uniform rs (-1) 1 (shape0 M_)) ;;
     r <- try_except
            (call (eigsh M_ (k + k_skip) "LM" (Some 0%Q) tol (Some max_iter) v0))
            (fun e => match e with
                      | FromLibrary (RuntimeError msg) =>
                          Some (raise (ValueError (NullSpaceArpack msg)))
                      | _ => None
                      end) ;;
     let '(eigen_values, eigen_vectors) := r in
     ret (skipn k_skip eigen_vectors, np_sum (skipn k_skip eigen_values))
   else if String.eqb eigen_solver "dense" then
     let M_ := if issparse M_ then todense M_ else M_ in
     r <- call (eigh M_ (Some (0, k + k_skip)%nat)) ;;
     let '(eigen_values, eigen_vectors) := r in
     let index := argsort (map Qabs eigen_values) in
     let eigen_vectors := take_idx [] eigen_vectors index in
     let eigen_values := take_idx 0%Q eigen_values index in
     ret (slice k_skip (k + 1) eigen_vectors,
          np_sum (slice k_skip (k + 1) eigen_values))
   else if String.eqb eigen_solver "amg" || String.eqb eigen_solver "lobpcg" then
     (* line 286 rebinds M inside the try, before anything can fail: the
        handler sees the shifted matrix *)
     let M_ := madd (identity (shape0 M_)) M_ in
     try_except
       (let n_components := Nat.min (k + k_skip + 10) (shape0 M_) in
        r <- eigen_decomposition M_ n_components eigen_solver None 0%Q
               false false ;;
        let '(eigen_values, eigen_vectors) := r in
        let eigen_values := map (fun x => (x - 1)%Q) eigen_values in
        let index := argsort (map Qabs eigen_values) in
        let eigen_values := take_idx 0%Q eigen_values index in
        let eigen_vectors := take_idx [] eigen_vectors index in
        ret (slice k_skip (k + 1) eigen_vectors,
             np_sum (slice k_skip (k + 1) eigen_values)))
       (fun e => match e with
                 | FromLibrary (LinAlgError _) => Some (
                     warn warning_lobpcg_retry ;;;
                     let M_ := madd (mscale 2 (identity (shape0 M_))) M_ in
                     let n_components := Nat.min (k + k_skip + 10) (shape0 M_) in
                     r <- eigen_decomposition M_ n_components eigen_solver
                            None 0%Q false false ;;
                     let '(eigen_values, eigen_vectors) := r in
                     let eigen_values := map (fun x => (x - 2)%Q) eigen_values in
                     let index := argsort (map Qabs eigen_values) in
                     let eigen_values := take_idx 0%Q eigen_values index in
                     let eigen_vectors := take_idx [] eigen_vectors index in
                     ret (slice k_skip (k + 1) eigen_vectors,
                          np_sum (slice k_skip (k + 1) eigen_values)))
                 | _ => None
                 end)
   else
     raise (ValueError (NullSpaceUnrecognized eigen_solver)))%py.

End Solver.

Arguments world {N}.
Arguments mkWorld {N}.
Arguments warnings_issued {N}.
Arguments np_random {N}.

End EigenDecomp.

(** ** geometry.py *)

(** A keyword-argument value. *)
Inductive pyvalue : Type :=
| PyBool (b : bool)
| PyInt (z : Z)
| PyFloat (q : Q)
| PyStr (s : string).

(** The three collaborators ([.adjacency], [.affinity], [.laplacian]) and
    [..utils.validation.check_array] are outside the two files.  The
    collaborators are pure functions of their declared inputs; the
    Laplacian one has two output shapes, chosen by [full_output]. *)
Class Collaborators : Type := {
  (** numpy arrays and scipy sparse matrices *)
  array : Type;
  ext_compute_adjacency_matrix : array -> string -> gmap string pyvalue -> array;
  ext_compute_affinity_matrix : array -> string -> gmap string pyvalue -> array;
  (** called with [full_output] false: the Laplacian *)
  ext_compute_laplacian_matrix : array -> string -> gmap string pyvalue -> array;
  (** called with [full_output] true: Laplacian, symmetric form, weights *)
  ext_compute_laplacian_matrix_full :
    array -> string -> gmap string pyvalue -> array * array * array;
  (** [check_array(A, accept_sparse=sparse_formats)]: the array, or the
      message of the [ValueError] *)
  check_array : array -> string + array;
  (** [A.shape] of a 2-D array *)
  shape : array -> nat * nat
}.

Module Geometry.

(** An object reference: the index of a cell of the heap. *)
Definition loc : Type := nat.

(** The attributes of a [Geometry] instance, geometry.py:83-95.  Matrix
    attributes hold references: two attributes, or an attribute and a
    returned value, can be the same object. *)
Record Geometry : Type := mkGeometry {
  adjacency_method : string;
  adjacency_kwds : option (gmap string pyvalue);
  affinity_method : string;
  affinity_kwds : option (gmap string pyvalue);
  laplacian_method : string;
  laplacian_kwds : option (gmap string pyvalue);
  X : option loc;
  adjacency_matrix : option loc;
  affinity_matrix : option loc;
  laplacian_matrix : option loc;
  laplacian_symmetric : option loc;
  laplacian_weights : option loc
}.

(** [Geometry.__init__] *)
Definition __init__ (adjacency_method : string)
    (adjacency_kwds : option (gmap string pyvalue))
    (affinity_method : string) (affinity_kwds : option (gmap string pyvalue))
    (laplacian_method : string) (laplacian_kwds : option (gmap string pyvalue))
    : Geometry :=
  mkGeometry adjacency_method adjacency_kwds affinity_method affinity_kwds
             laplacian_method laplacian_kwds None None None None None None.

(** Attribute assignment, one function per assigned attribute. *)
Definition with_X (v : option loc) (g : Geometry) : Geometry :=
  mkGeometry (adjacency_method g) (adjacency_kwds g) (affinity_method g)
    (affinity_kwds g) (laplacian_method g) (laplacian_kwds g)
    v (adjacency_matrix g) (affinity_matrix g) (laplacian_matrix g)
    (laplacian_symmetric g) (laplacian_weights g).

Definition with_adjacency_matrix (v : option loc) (g : Geometry) : Geometry :=
  mkGeometry (adjacency_method g) (adjacency_kwds g) (affinity_method g)
    (affinity_kwds g) (laplacian_method g) (laplacian_kwds g)
    (X g) v (affinity_matrix g) (laplacian_matrix g)
    (laplacian_symmetric g) (laplacian_weights g).

Definition with_affinity_matrix (v : option loc) (g : Geometry) : Geometry :=
  mkGeometry (adjacency_method g) (adjacency_kwds g) (affinity_method g)
    (affinity_kwds g) (laplacian_method g) (laplacian_kwds g)
    (X g) (adjacency_matrix g) v (laplacian_matrix g)
    (laplacian_symmetric g) (laplacian_weights g).

Definition with_laplacian_matrix (v : option loc) (g : Geometry) : Geometry :=
  mkGeometry (adjacency_method g) (adjacency_kwds g) (affinity_method g)
    (affinity_kwds g) (laplacian_method g) (laplacian_kwds g)
    (X g) (adjacency_matrix g) (affinity_matrix g) v
    (laplacian_symmetric g) (laplacian_weights g).

Definition with_laplacian_symmetric (v : option loc) (g : Geometry) : Geometry :=
  mkGeometry (adjacency_method g) (adjacency_kwds g) (affinity_method g)
    (affinity_kwds g) (laplacian_method g) (laplacian_kwds g)
    (X g) (adjacency_matrix g) (affinity_matrix g) (laplacian_matrix g)
    v (laplacian_weights g).

Definition with_laplacian_weights (v : option loc) (g : Geometry) : Geometry :=
  mkGeometry (adjacency_method g) (adjacency_kwds g) (affinity_method g)
    (affinity_kwds g) (laplacian_method g) (laplacian_kwds g)
    (X g) (adjacency_matrix g) (affinity_matrix g) (laplacian_matrix g)
    (laplacian_symmetric g) v.

(** Lines 117-118 and their likes: a new dictionary is built from the
    stored one (or from the empty one when that is [None] or empty) and
    updated with [kwargs], whose keys win.  The stored one is not touched. *)
Definition merged_kwds (stored : option (gmap string pyvalue))
    (kwargs : gmap string pyvalue) : gmap string pyvalue :=
  kwargs ∪ default ∅ stored.

Section Store.
Context {C : Collaborators}.

(** The heap of array objects and the instance [self]. *)
Record store : Type := mkStore { heap : list array; self : Geometry }.

(** A new object. *)
Definition alloc (v : array) : M store loc :=
  fun st => (inr (length (heap st)), mkStore (heap st ++ [v]) (self st)).

(** The array behind an attribute; [None] is not an array. *)
Definition deref (r : option loc) : M store array :=
  fun st => match r with
            | Some l => match heap st !! l with
                        | Some v => (inr v, st)
                        | None => (inl (TypeError "no such object"), st)
                        end
            | None => (inl (TypeError "NoneType"), st)
            end.

(** [obj.copy()] *)
Definition copy_of (r : option loc) : M store loc :=
  (v <- deref r ;; alloc v)%py.

Definition getattr {A} (f : Geometry -> A) : M store A :=
  fun st => (inr (f (self st)), st).

Definition setattr (upd : Geometry -> Geometry) : M store unit :=
  fun st => (inr tt, mkStore (heap st) (upd (self st))).

(** geometry.py:97-125 *)
Definition compute_adjacency_matrix (copy : bool)
    (kwargs : gmap string pyvalue) : M store loc :=
  (X_ <- getattr X ;;
   match X_ with
   | None => raise (ValueError NoDataMatrix)
   | Some _ =>
       stored <- getattr adjacency_kwds ;;
       let adjacency_kwds := merged_kwds stored kwargs in
       Xv <- deref X_ ;;
       method <- getattr adjacency_method ;;
       a <- alloc (ext_compute_adjacency_matrix Xv method adjacency_kwds) ;;
       setattr (with_adjacency_matrix (Some a)) ;;;
       r <- getattr adjacency_matrix ;;
       if copy then copy_of r
       else match r with
            | Some l => ret l
            | None => raise (TypeError "NoneType")
            end
   end)%py.

(** geometry.py:127-157 *)
Definition compute_affinity_matrix (copy : bool)
    (kwargs : gmap string pyvalue) : M store loc :=
  (a <- getattr adjacency_matrix ;;
   match a with
   | None => (compute_adjacency_matrix false ∅ ;;; ret tt)
   | Some _ => ret tt
   end ;;;
   stored <- getattr affinity_kwds ;;
   let affinity_kwds := merged_kwds stored kwargs in
   a <- getattr adjacency_matrix ;;
   Av <- deref a ;;
   method <- getattr affinity_method ;;
   f <- alloc (ext_compute_affinity_matrix Av method affinity_kwds) ;;
   setattr (with_affinity_matrix (Some f)) ;;;
   r <- getattr affinity_matrix ;;
   if copy then copy_of r
   else match r with
        | Some l => ret l
        | None => raise (TypeError "NoneType")
        end)%py.

(** geometry.py:159-201.  Whatever [return_lapsym] is, the value
    returned is the one of lines 198-201. *)
Definition compute_laplacian_matrix (copy return_lapsym : bool)
    (kwargs : gmap string pyvalue) : M store loc :=
  (f <- getattr affinity_matrix ;;
   match f with
   | None => (compute_affinity_matrix false ∅ ;;; ret tt)
   | Some _ => ret tt
   end ;;;
   stored <- getattr laplacian_kwds ;;
   let laplacian_kwds := merged_kwds stored kwargs in
   let laplacian_kwds := <["full_output" := PyBool return_lapsym]> laplacian_kwds in
   f <- getattr affinity_matrix ;;
   Fv <- deref f ;;
   method <- getattr laplacian_method ;;
   (if return_lapsym then
      let '(L, Lsym, w) :=
        ext_compute_laplacian_matrix_full Fv method laplacian_kwds in
      l <- alloc L ;; ls <- alloc Lsym ;; lw <- alloc w ;;
      setattr (with_laplacian_matrix (Some l)) ;;;
      setattr (with_laplacian_symmetric (Some ls)) ;;;
      setattr (with_laplacian_weights (Some lw))
    else
      l <- alloc (ext_compute_laplacian_matrix Fv method laplacian_kwds) ;;
      setattr (with_laplacian_matrix (Some l))) ;;;
   r <- getattr laplacian_matrix ;;
   if copy then copy_of r
   else match r with
        | Some l => ret l
        | None => raise (TypeError "NoneType")
        end)%py.

(** geometry.py:203-247.  The array that [check_array] hands back is
    held in a cell of its own. *)
Definition set_data_matrix (X_ : array) : M store unit :=
  (X_ <- checked (check_array X_) ;;
   x <- alloc X_ ;;
   setattr (with_X (Some x)))%py.

Definition set_adjacency_matrix (adjacency_mat : array) : M store unit :=
  (adjacency_mat <- checked (check_array adjacency_mat) ;;
   if negb (Nat.eqb (fst (shape adjacency_mat)) (snd (shape adjacency_mat)))
   then raise (ValueError (NotSquare "adjacency matrix is not square"))
   else a <- alloc adjacency_mat ;;
        setattr (with_adjacency_matrix (Some a)))%py.

Definition set_affinity_matrix (affinity_mat : array) : M store unit :=
  (affinity_mat <- checked (check_array affinity_mat) ;;
   if negb (Nat.eqb (fst (shape affinity_mat)) (snd (shape affinity_mat)))
   then raise (ValueError (NotSquare "affinity matrix is not square"))
   else a <- alloc affinity_mat ;;
        setattr (with_affinity_matrix (Some a)))%py.

Definition set_laplacian_matrix (laplacian_mat : array) : M store unit :=
  (laplacian_mat <- checked (check_array laplacian_mat) ;;
   if negb (Nat.eqb (fst (shape laplacian_mat)) (snd (shape laplacian_mat)))
   then raise (ValueError (NotSquare "Laplacian matrix is not square"))
   else a <- alloc laplacian_mat ;;
        setattr (with_laplacian_matrix (Some a)))%py.

Definition delete_adjacency_matrix : M store unit :=
  setattr (with_adjacency_matrix None).
Definition delete_affinity_matrix : M store unit :=
  setattr (with_affinity_matrix None).
Definition delete_laplacian_matrix : M store unit :=
  setattr (with_laplacian_matrix None).

End Store.

Arguments store {C}.
Arguments mkStore {C}.
Arguments heap {C}.
Arguments self {C}.

End Geometry.

(** ** What the claims speak about *)

(** [A v], and [lam] being an eigenvalue of [A] (rationals up to [==]). *)
Definition mat_vec (A : matrix) (v : vector) : vector :=
  map (fun row => np_sum (zip_with Qmult row v)) (rows A).

Definition is_eigenvalue (A : matrix) (lam : Q) : Prop :=
  exists v : vector,
    length v = shape0 A /\
    Exists (fun x => ~ (x == 0)%Q) v /\
    Forall2 Qeq (mat_vec A v) (map (Qmult lam) v).

Definition non_decreasing (v : vector) : Prop := Sorted Qle v.
Definition non_increasing (v : vector) : Prop := Sorted (fun a b => (b <= a)%Q) v.

(** The order the [largest] flag asks for. *)
Definition ordered_as (largest : bool) (v : vector) : Prop :=
  if largest then non_increasing v else non_decreasing v.

(** Every exception [m] raises satisfies [P]. *)
Definition raises_only {S A} (P : exn -> Prop) (m : M S A) : Prop :=
  forall s e s', m s = (inl e, s') -> P e.

(** Every value [m] returns satisfies [Q]. *)
Definition returns_only {S A} (Q : A -> Prop) (m : M S A) : Prop :=
  forall s a s', m s = (inr a, s') -> Q a.

(** Not the error of the trailing branch of [null_space], eigendecomp.py:311. *)
Definition not_trailing (e : exn) : Prop :=
  forall given, e <> ValueError (NullSpaceUnrecognized given).

(** eigendecomp.py:292-296 and 305-309, which differ in [shift] only: the
    shift taken off the values, the pairs sorted by absolute value, the
    block [k_skip : k+1] and the sum of its values. *)
Definition shifted_back (shift : Q) (k k_skip : nat) (r : vector * columns)
    : columns * Q :=
  let '(eigen_values, eigen_vectors) := r in
  let eigen_values := map (fun x => (x - shift)%Q) eigen_values in
  let index := argsort (map Qabs eigen_values) in
  (slice k_skip (k + 1) (take_idx [] eigen_vectors index),
   np_sum (slice k_skip (k + 1) (take_idx 0%Q eigen_values index))).

(** The block iteration as the specification words it for [amg]: an
    initial random block of min(N, 5+2k) vectors whose first column is
    seeded with the matrix diagonal, the returned eigenpairs sorted by
    eigenvalue (ascending, then reversed if [largest]) and truncated to
    the first k; [lobpcg] being the same minus the preconditioner. *)
Definition sort_pairs_truncate (largest : bool) (k : nat)
    (r : vector * columns) : vector * columns :=
  let '(lambdas, vecs) := r in
  let order := if largest then rev (argsort lambdas) else argsort lambdas in
  (firstn k (take_idx 0%Q lambdas order), firstn k (take_idx [] vecs order)).

Section BlockIteration.
Import EigenDecomp.
Context {N : Numerics}.

Definition block_iteration (seeded : bool) (M_ : option preconditioner)
    (G : matrix) (k : nat) (g : generator) (largest : bool)
    : M world (vector * columns) :=
  (X <- draw g (fun rs => rand rs (shape0 G) (Nat.min (shape0 G) (5 + 2 * k))) ;;
   X <- (if seeded then lift (set_first_column X (diagonal G)) else ret X) ;;
   r <- call (lobpcg G X M_ largest) ;;
   ret (sort_pairs_truncate largest k r))%py.

Definition amg_minus_preconditioner : matrix -> nat -> generator -> bool ->
    M world (vector * columns) :=
  block_iteration true None.

End BlockIteration.

(** ** What the further properties speak about *)

(** A matrix with [n] rows of [n] entries. *)
Definition square (n : nat) (A : matrix) : Prop :=
  length (rows A) = n /\ Forall (fun r => length r = n) (rows A).

(** The world after one more warning. *)
Definition warned {N : Numerics} (msg : string) (w : EigenDecomp.world)
    : EigenDecomp.world :=
  EigenDecomp.mkWorld (msg :: EigenDecomp.warnings_issued w)
    (EigenDecomp.np_random w).

(** ** Concrete libraries and collaborators, for running the code *)

Module Sample.

(** The [i]-th unit vector of length [n]. *)
Definition unit_vector (n i : nat) : vector :=
  map (fun j => if Nat.eqb i j then 1%Q else 0%Q) (seq 0 n).

(** Of the entries of [d], the indices of the [k] with the smallest
    ([from_top] false) or largest [key], listed by ascending entry. *)
Definition select_ascending (d key : vector) (k : nat) (from_top : bool)
    : list nat :=
  let order := argsort key in
  let chosen := if from_top then skipn (length d - k) order else firstn k order in
  take_idx 0%nat chosen (argsort (take_idx 0%Q d chosen)).

(** Eigenpairs of a diagonal matrix: entry [i] with the [i]-th unit vector. *)
Definition pairs_at (A : matrix) (index : list nat) : vector * columns :=
  (take_idx 0%Q (diagonal A) index, map (unit_vector (shape0 A)) index).

(** ARPACK on a diagonal matrix.  As ARPACK does, it hands the values back
    in ascending order whatever [which] selects, and wants [k < n]. *)
Definition diag_eigsh (A : matrix) (k : nat) (which : string)
    (sigma : option Q) (tol : Q) (maxiter : option nat) (v0 : vector)
    : lib_exn + (vector * columns) :=
  if (shape0 A <=? k)%nat then inl (OtherError "TypeError" "k must be less than ndim(A)")
  else
    let d := diagonal A in
    match sigma with
    | Some s => inr (pairs_at A (select_ascending d
                       (map (fun x => Qabs (x - s)) d) k false))
    | None => inr (pairs_at A (select_ascending d (map Qabs d) k
                       (String.eqb which "LM")))
    end.

Definition diag_eigs (A : matrix) (k : nat) (which : string) (tol : Q)
    : lib_exn + (vector * columns) :=
  if (shape0 A <=? k)%nat then inl (OtherError "TypeError" "k must be less than ndim(A)")
  else inr (pairs_at A (select_ascending (diagonal A) (diagonal A) k
                          (String.eqb which "LR"))).

(** LAPACK on a diagonal matrix: ascending values; [eigvals=(lo, hi)]
    keeps the indices [lo..hi]. *)
Definition diag_eigh (A : matrix) (eigvals : option (nat * nat))
    : lib_exn + (vector * columns) :=
  let order := argsort (diagonal A) in
  match eigvals with
  | None => inr (pairs_at A order)
  | Some (lo, hi) =>
      if (shape0 A <=? hi)%nat then inl (OtherError "ValueError" "eigvals out of range")
      else inr (pairs_at A (slice lo (hi + 1) order))
  end.

(** Block iteration on a diagonal matrix: as many pairs as the block has
    columns, from the requested end.  It breaks down, with the error the
    Cholesky step raises, on a matrix with a diagonal entry below
    [breakdown]. *)
Definition diag_lobpcg (breakdown : Q) (A : matrix) (X : columns)
    (M_ : option unit) (largest : bool) : lib_exn + (vector * columns) :=
  if existsb (fun x => Qlt_bool x breakdown) (diagonal A) then
    inl (LinAlgError "matrix is not positive definite")
  else
    let order := argsort (diagonal A) in
    inr (pairs_at A (if largest then firstn (length X) (rev order)
                     else firstn (length X) order)).

(** The generator is a counter; every sample is 1/2. *)
Definition const_uniform (rs : nat) (lo hi : Q) (n : nat) : vector * nat :=
  (repeat (1 # 2)%Q n, S rs).
Definition const_rand (rs : nat) (n m : nat) : columns * nat :=
  (repeat (repeat (1 # 2)%Q n) m, S rs).

(** Libraries that are exact on diagonal matrices. *)
Definition diag_numerics (loaded : bool) (breakdown : Q) : Numerics := {|
  PYAMG_LOADED := loaded;
  RandomState := nat;
  uniform := const_uniform;
  rand := const_rand;
  eigsh := diag_eigsh;
  eigs := diag_eigs;
  preconditioner := unit;
  smoothed_aggregation_preconditioner := fun _ => inr tt;
  lobpcg := diag_lobpcg breakdown;
  eigh := diag_eigh;
  eig := fun A => diag_eigh A None;
  check_array_csr := fun A => inr A
|}.

(** The same libraries with a block solver that reports the block it was
    started from: first column as values, the block as vectors. *)
Definition probe_numerics : Numerics := {|
  PYAMG_LOADED := true;
  RandomState := nat;
  uniform := const_uniform;
  rand := const_rand;
  eigsh := diag_eigsh;
  eigs := diag_eigs;
  preconditioner := unit;
  smoothed_aggregation_preconditioner := fun _ => inr tt;
  lobpcg := fun A X M_ largest => inr (nth 0 X [], X);
  eigh := diag_eigh;
  eig := fun A => diag_eigh A None;
  check_array_csr := fun A => inr A
|}.

(** [diag(d)] as a sparse matrix. *)
Definition diag_matrix (d : vector) : matrix :=
  mkMatrix true
    (imap (fun i x => map (fun j => if Nat.eqb i j then x else 0%Q)
                          (seq 0 (length d))) d).

Definition world0 {N : Numerics} (rs : RandomState) : EigenDecomp.world :=
  EigenDecomp.mkWorld [] rs.

(** Collaborators on integer arrays: points on a line, the graph of the
    pairs at distance at most [radius] (1 unless given), 0/1 affinities
    with a unit diagonal, and the unnormalised Laplacian, whose full
    output adds the Laplacian with each row scaled by its degree and the
    degrees as weights. *)
Definition kw_int (kw : gmap string pyvalue) (key : string) (dflt : Z) : Z :=
  match kw !! key with
  | Some (PyInt z) => z
  | _ => dflt
  end.

Definition line_adjacency (X_ : list (list Z)) (method : string)
    (kw : gmap string pyvalue) : list (list Z) :=
  let r := kw_int kw "radius" 1 in
  map (fun xi => map (fun xj => let d := Z.abs (hd 0 xi - hd 0 xj) in
                                if (d <=? r)%Z then d else 0) X_) X_.

Definition line_affinity (A : list (list Z)) (method : string)
    (kw : gmap string pyvalue) : list (list Z) :=
  imap (fun i row => imap (fun j d => if Nat.eqb i j then 1
                                      else if (d =? 0)%Z then 0 else 1) row) A.

Definition degrees (W : list (list Z)) : list Z :=
  map (fun row => fold_right Z.add 0 row) W.

Definition line_laplacian (W : list (list Z)) (method : string)
    (kw : gmap string pyvalue) : list (list Z) :=
  imap (fun i row => imap (fun j w => (if Nat.eqb i j
                                        then fold_right Z.add 0 row else 0) - w)
                          row) W.

Definition line_collaborators : Collaborators := {|
  array := list (list Z);
  ext_compute_adjacency_matrix := line_adjacency;
  ext_compute_affinity_matrix := line_affinity;
  ext_compute_laplacian_matrix := line_laplacian;
  ext_compute_laplacian_matrix_full := fun W method kw =>
    let L := line_laplacian W method kw in
    (L, zip_with (fun d row => map (Z.mul d) row) (degrees W) L, [degrees W]);
  check_array := fun A =>
    match A with
    | [] => inl "Found array with 0 sample(s)"
    | r :: _ => if forallb (fun r' => Nat.eqb (length r') (length r)) A
                then inr A else inl "setting an array element with a sequence"
    end;
  shape := fun A => (length A, length (hd [] A))
|}.

(** Three points on a line, 0, 1 and 3, set as data of a new instance
    with the defaults of [__init__]. *)
Definition three_points : list (list Z) := [[0]; [1]; [3]].

Definition new_store : Geometry.store (C := line_collaborators) :=
  Geometry.mkStore []
    (Geometry.__init__ "auto" None "auto" None "auto" None).

Definition store_with_data : Geometry.store (C := line_collaborators) :=
  snd (Geometry.set_data_matrix (C := line_collaborators) three_points new_store).

(** The same instance with an adjacency matrix set and no data. *)
Definition store_with_adjacency : Geometry.store (C := line_collaborators) :=
  snd (Geometry.set_adjacency_matrix (C := line_collaborators)
         [[0; 1]; [1; 0]] new_store).

(** Inputs. *)
Definition diag_0_1 : matrix := diag_matrix [0%Q; 1%Q].
Definition diag_1_2_3 : matrix := diag_matrix [1%Q; 2%Q; 3%Q].
Definition diag_1_to_6 : matrix :=
  diag_matrix [1%Q; 2%Q; 3%Q; 4%Q; 5%Q; 6%Q].

End Sample.

(** * Properties *)

(** ** The monad *)

Lemma bind_ret_l {S A B} (a : A) (k : A -> M S B) (s : S) :
  bind (ret a) k s = k a s.
Proof. reflexivity. Qed.

Lemma bind_inr {S A B} (m : M S A) (k : A -> M S B) s a s' :
  m s = (inr a, s') -> bind m k s = k a s'.
Proof. unfold bind. intros ->. reflexivity. Qed.

Lemma bind_inl {S A B} (m : M S A) (k : A -> M S B) s e s' :
  m s = (inl e, s') -> bind m k s = (inl e, s').
Proof. unfold bind. intros ->. reflexivity. Qed.

(** A result of [bind] comes from a result of its first part. *)
Lemma bind_inr_inv {S A B} (m : M S A) (k : A -> M S B) s b s2 :
  bind m k s = (inr b, s2) ->
  exists a s1, m s = (inr a, s1) /\ k a s1 = (inr b, s2).
Proof.
  unfold bind. destruct (m s) as [[e|a] s1]; intros H.
  - discriminate.
  - exists a, s1. split; [reflexivity | exact H].
Qed.

(** ** Sorting by [argsort] *)

Section Ordering.

Lemma Qle_bool_false (x y : Q) : Qle_bool x y = false -> (y <= x)%Q.
Proof.
  intros H. destruct (Qlt_le_dec y x) as [Hlt | Hle].
  - apply Qlt_le_weak, Hlt.
  - apply Qle_bool_iff in Hle. congruence.
Qed.

Variable key : nat -> Q.

Let by_key (i j : nat) : Prop := (key i <= key j)%Q.

Lemma insert_by_Forall (P : nat -> Prop) i l :
  P i -> Forall P l -> Forall P (insert_by key i l).
Proof.
  intros Hi Hl. induction Hl as [| j t Hj Ht IH]; simpl.
  - constructor; [exact Hi | constructor].
  - destruct (Qle_bool (key i) (key j)).
    + constructor; [exact Hi | constructor; assumption].
    + constructor; assumption.
Qed.

Lemma insert_by_sorted i l :
  StronglySorted by_key l -> StronglySorted by_key (insert_by key i l).
Proof.
  induction 1 as [| j t Hsorted IH Hall]; simpl.
  - constructor; constructor.
  - destruct (Qle_bool (key i) (key j)) eqn:E.
    + apply Qle_bool_iff in E. constructor.
      * constructor; [assumption | assumption].
      * constructor; [exact E |].
        eapply Forall_impl; [exact Hall |].
        intros a Ha. unfold by_key in *. eapply Qle_trans; eassumption.
    + apply Qle_bool_false in E. constructor; [exact IH |].
      apply insert_by_Forall; assumption.
Qed.

Lemma fold_insert_by_sorted (l : list nat) :
  StronglySorted by_key (fold_right (insert_by key) [] l).
Proof.
  induction l as [| i l IH]; simpl.
  - constructor.
  - apply insert_by_sorted, IH.
Qed.

End Ordering.

Lemma StronglySorted_map_key (key : nat -> Q) (l : list nat) :
  StronglySorted (fun i j => (key i <= key j)%Q) l ->
  StronglySorted Qle (map key l).
Proof.
  induction 1 as [| i t Hs IH Hall]; simpl; constructor.
  - exact IH.
  - apply Forall_map. exact Hall.
Qed.

(** [v[np.argsort(v)]] is ascending. *)
Lemma argsort_ascending (v : vector) :
  StronglySorted Qle (take_idx 0%Q v (argsort v)).
Proof.
  unfold take_idx, argsort.
  apply (StronglySorted_map_key (fun i => nth i v 0%Q)).
  apply fold_insert_by_sorted.
Qed.

Lemma StronglySorted_rev_flip {A} (R : A -> A -> Prop) (l : list A) :
  StronglySorted R l -> StronglySorted (fun a b => R b a) (rev l).
Proof.
  induction 1 as [| x t Hs IH Hall]; simpl.
  - constructor.
  - apply StronglySorted_app_2.
    + intros a b Ha Hb. apply list_elem_of_In in Ha, Hb.
      destruct Hb as [<- | []]. apply in_rev in Ha.
      rewrite Forall_forall in Hall. apply Hall. apply list_elem_of_In, Ha.
    + exact IH.
    + constructor; constructor.
Qed.

Lemma In_firstn_In {A} (n : nat) (l : list A) (a : A) :
  In a (firstn n l) -> In a l.
Proof.
  revert n. induction l as [| x t IH]; intros [| n]; simpl; try tauto.
  intros [-> | H]; [left; reflexivity | right; eapply IH; exact H].
Qed.

Lemma StronglySorted_firstn {A} (R : A -> A -> Prop) (n : nat) (l : list A) :
  StronglySorted R l -> StronglySorted R (firstn n l).
Proof.
  intros H. revert n. induction H as [| x t Hs IH Hall]; intros [| n]; simpl;
    try constructor.
  - apply IH.
  - apply Forall_forall. intros a Ha. rewrite Forall_forall in Hall.
    apply Hall. apply list_elem_of_In. apply list_elem_of_In in Ha.
    eapply In_firstn_In; eassumption.
Qed.

(** Reversing an index list reverses what it selects. *)
Lemma take_idx_rev {A} (d : A) (v : list A) (index : list nat) :
  take_idx d v (rev index) = rev (take_idx d v index).
Proof. unfold take_idx. apply map_rev. Qed.

(** ** What a computation can raise *)

Section Raises.
Context {S : Type} (P : exn -> Prop).

Lemma raises_only_ret {A} (a : A) : raises_only P (@ret S A a).
Proof. intros s e s' H. discriminate H. Qed.

Lemma raises_only_raise {A} (e : exn) : P e -> raises_only P (@raise S A e).
Proof. intros He s e' s' H. injection H as <- _. exact He. Qed.

Lemma raises_only_modify (f : S -> S) : raises_only P (modify f).
Proof. intros s e s' H. discriminate H. Qed.

Lemma raises_only_call {A} (r : lib_exn + A) :
  (forall e, P (FromLibrary e)) -> raises_only P (@call S A r).
Proof.
  intros HP s e s' H. unfold call in H. destruct r as [e0 | a].
  - injection H as <- _. apply HP.
  - discriminate H.
Qed.

Lemma raises_only_checked {A} (r : string + A) :
  (forall msg, P (ValueError (InvalidArray msg))) -> raises_only P (@checked S A r).
Proof.
  intros HP s e s' H. unfold checked in H. destruct r as [msg | a].
  - injection H as <- _. apply HP.
  - discriminate H.
Qed.

Lemma raises_only_lift {A} (r : exn + A) :
  (forall e, r = inl e -> P e) -> raises_only P (@lift S A r).
Proof.
  intros HP s e s' H. unfold lift in H. injection H as -> _. apply HP. reflexivity.
Qed.

Lemma raises_only_bind_post {A B} (Q : A -> Prop) (m : M S A) (k : A -> M S B) :
  returns_only Q m -> raises_only P m ->
  (forall a, Q a -> raises_only P (k a)) ->
  raises_only P (bind m k).
Proof.
  intros HQ Hm Hk s e s' H. unfold bind in H.
  destruct (m s) as [[e0 | a] s1] eqn:E.
  - injection H as <- _. eapply Hm, E.
  - eapply Hk; [eapply HQ, E | exact H].
Qed.

Lemma raises_only_bind {A B} (m : M S A) (k : A -> M S B) :
  raises_only P m -> (forall a, raises_only P (k a)) ->
  raises_only P (bind m k).
Proof.
  intros Hm Hk. apply (raises_only_bind_post (fun _ => True)); auto.
  intros s a s' _. exact I.
Qed.

Lemma raises_only_try_except {A} (m : M S A) (h : exn -> option (M S A)) :
  (forall e, h e = None -> raises_only P m) ->
  (forall e k, h e = Some k -> raises_only P k) ->
  raises_only P (try_except m h).
Proof.
  intros Hm Hh s e s' H. unfold try_except in H.
  destruct (m s) as [[e0 | a] s1] eqn:E; [| discriminate H].
  destruct (h e0) as [k |] eqn:Eh.
  - eapply Hh; eassumption.
  - injection H as <- _. eapply Hm; eassumption.
Qed.

End Raises.

(** ** Solver selection *)

Section SolverSelection.
Import EigenDecomp.
Context {N : Numerics}.

Lemma str_in_EIGEN_SOLVERS (s : string) :
  str_in s EIGEN_SOLVERS = true ->
  s = "auto" \/ s = "dense" \/ s = "arpack" \/ s = "lobpcg" \/ s = "amg".
Proof.
  unfold str_in, EIGEN_SOLVERS. simpl.
  rewrite !orb_true_iff, !String.eqb_eq. intuition discriminate.
Qed.

(** With size and vector count given, what comes back is one of the four
    solvers the callers branch on. *)
Lemma check_eigen_solver_resolved (s : string) (size nvec : Z) :
  returns_only (fun r => r = "arpack" \/ r = "dense" \/ r = "amg" \/ r = "lobpcg")
    (check_eigen_solver s (Some size) (Some nvec)).
Proof.
  intros w r w' H. unfold check_eigen_solver in H.
  destruct (str_in s EIGEN_SOLVERS) eqn:Hin; simpl in H; [| discriminate H].
  apply str_in_EIGEN_SOLVERS in Hin.
  destruct Hin as [-> | [-> | [-> | [-> | ->]]]]; simpl in H.
  - destruct ((size >? 200)%Z && (nvec <? 10)%Z); [destruct PYAMG_LOADED |];
      injection H as <- _; tauto.
  - injection H as <- _; tauto.
  - injection H as <- _; tauto.
  - destruct (size <? 5 * nvec + 1)%Z; injection H as <- _; tauto.
  - destruct PYAMG_LOADED; simpl in H; [| discriminate H].
    injection H as <- _; tauto.
Qed.

(** What [check_eigen_solver] raises comes from its two guards. *)
Lemma check_eigen_solver_raises (s : string) (size nvec : option Z) :
  raises_only (fun e => e = ValueError (UnrecognizedEigenSolver s) \/
                        e = ValueError AmgNotAvailable)
    (check_eigen_solver s size nvec).
Proof.
  intros w e w' H. unfold check_eigen_solver in H.
  destruct (negb (str_in s EIGEN_SOLVERS)); [injection H as <- _; tauto |].
  destruct (String.eqb s "amg" && negb PYAMG_LOADED); [injection H as <- _; tauto |].
  destruct size as [size |], nvec as [nvec |]; try discriminate H.
  destruct (String.eqb s "lobpcg" && (size <? 5 * nvec + 1)%Z); [discriminate H |].
  destruct (String.eqb s "auto"); [| discriminate H].
  destruct ((size >? 200)%Z && (nvec <? 10)%Z); [destruct PYAMG_LOADED |];
    discriminate H.
Qed.

(** C8: with requested solver 'auto' and both size and vector count
    known, [check_eigen_solver] returns (without raising or warning)
    'amg' exactly when size > 200, vector count < 10 and pyamg is loaded,
    'arpack' exactly when size > 200, vector count < 10 and pyamg is not
    loaded, and 'dense' exactly in the remaining cases. *)
Theorem check_eigen_solver_auto (size nvec : Z) (w : world) :
  exists r : string,
    check_eigen_solver "auto" (Some size) (Some nvec) w = (inr r, w) /\
    (r = "amg" <-> (size > 200 /\ nvec < 10 /\ PYAMG_LOADED = true)%Z) /\
    (r = "arpack" <-> (size > 200 /\ nvec < 10 /\ PYAMG_LOADED = false)%Z) /\
    (r = "dense" <-> ~ (size > 200 /\ nvec < 10)%Z).
Proof.
  unfold check_eigen_solver. simpl.
  destruct (Z.gtb_spec size 200) as [Hs | Hs];
    destruct (Z.ltb_spec nvec 10) as [Hn | Hn]; simpl.
  1: destruct PYAMG_LOADED eqn:HL.
  all: eexists; split; [reflexivity |].
  all: repeat split; intros; try discriminate; try lia; try tauto.
  all: try (exfalso; intuition (try discriminate; lia)).
Qed.

End SolverSelection.

(** ** The trailing branch of [null_space] *)

Lemma raises_only_weaken {S A} (P Q : exn -> Prop) (m : M S A) :
  (forall e, P e -> Q e) -> raises_only P m -> raises_only Q m.
Proof. intros HPQ Hm s e s' H. eapply HPQ, Hm, H. Qed.

Section Unreachable.
Import EigenDecomp.
Context {N : Numerics}.

Lemma raises_only_draw {A} (P : exn -> Prop) (g : generator)
    (sample : RandomState -> A * RandomState) :
  raises_only P (draw g sample).
Proof.
  intros w e w' H. unfold draw in H. destruct g.
  - destruct (sample (np_random w)). discriminate H.
  - discriminate H.
Qed.

Lemma raises_only_warn (P : exn -> Prop) (msg : string) :
  raises_only P (warn msg).
Proof. apply raises_only_modify. Qed.

Lemma check_eigen_solver_not_trailing s size nvec :
  raises_only not_trailing (check_eigen_solver s size nvec).
Proof.
  eapply raises_only_weaken; [| apply check_eigen_solver_raises].
  intros e [-> | ->] given; discriminate.
Qed.

Ltac raises_step :=
  lazymatch goal with
  | |- raises_only _ (bind (check_eigen_solver _ _ _) _) =>
      apply raises_only_bind; [apply check_eigen_solver_not_trailing | intros ?]
  | |- raises_only _ (bind _ _) => apply raises_only_bind; [| intros ?]
  | |- raises_only _ (ret _) => apply raises_only_ret
  | |- raises_only _ (raise _) => apply raises_only_raise; intros ?; discriminate
  | |- raises_only _ (call _) => apply raises_only_call; intros ? ?; discriminate
  | |- raises_only _ (checked _) =>
      apply raises_only_checked; intros ? ?; discriminate
  | |- raises_only _ (lift (set_first_column ?X _)) =>
      apply raises_only_lift; destruct X; simpl; intros ? [=] ?; subst; discriminate
  | |- raises_only _ (warn _) => apply raises_only_warn
  | |- raises_only _ (draw _ _) => apply raises_only_draw
  | |- raises_only _ (if ?b then _ else _) => destruct b
  | |- raises_only _ (let '(_, _) := ?r in _) => destruct r
  end.

Lemma eigen_decomposition_not_trailing G n_components eigen_solver
    random_state eigen_tol drop_first largest :
  raises_only not_trailing
    (eigen_decomposition G n_components eigen_solver random_state eigen_tol
       drop_first largest).
Proof.
  unfold eigen_decomposition. cbv zeta.
  repeat raises_step.
Qed.

Ltac handler_cases e k Hk :=
  destruct e as [? | [? | ? | ? ?] | | ? | ?]; simpl in Hk; try discriminate Hk;
  injection Hk as <-.

Lemma null_space_not_trailing M_ k k_skip eigen_solver tol max_iter random_state :
  raises_only not_trailing
    (null_space M_ k k_skip eigen_solver tol max_iter random_state).
Proof.
  unfold null_space.
  eapply raises_only_bind_post.
  - apply check_eigen_solver_resolved.
  - apply check_eigen_solver_not_trailing.
  - intros r [-> | [-> | [-> | ->]]]; cbv zeta; simpl.
    + raises_step; [raises_step |]. raises_step.
      * apply raises_only_try_except.
        -- intros _ _. raises_step.
        -- intros e h Hh. handler_cases e h Hh. raises_step.
      * repeat raises_step.
    + repeat raises_step.
    + apply raises_only_try_except.
      * intros _ _. raises_step; [apply eigen_decomposition_not_trailing |].
        repeat raises_step.
      * intros e h Hh. handler_cases e h Hh.
        raises_step; [raises_step |].
        raises_step; [apply eigen_decomposition_not_trailing |].
        repeat raises_step.
    + apply raises_only_try_except.
      * intros _ _. raises_step; [apply eigen_decomposition_not_trailing |].
        repeat raises_step.
      * intros e h Hh. handler_cases e h Hh.
        raises_step; [raises_step |].
        raises_step; [apply eigen_decomposition_not_trailing |].
        repeat raises_step.
Qed.

(** C10: whatever solver name is asked for, with size and vector count
    supplied [check_eigen_solver] either raises or resolves to one of
    'arpack', 'dense', 'amg', 'lobpcg'; so [null_space], which supplies
    both, never raises the error of its trailing branch. *)
Theorem null_space_trailing_branch_unreachable :
  (forall (s : string) (size nvec : Z) (w w' : world) (r : string),
     check_eigen_solver s (Some size) (Some nvec) w = (inr r, w') ->
     r = "arpack" \/ r = "dense" \/ r = "amg" \/ r = "lobpcg") /\
  (forall M_ k k_skip eigen_solver tol max_iter random_state (w : world) given,
     fst (null_space M_ k k_skip eigen_solver tol max_iter random_state w)
       <> inl (ValueError (NullSpaceUnrecognized given))).
Proof.
  split.
  - intros s size nvec w w' r H.
    exact (check_eigen_solver_resolved s size nvec w r w' H).
  - intros M_ k k_skip eigen_solver tol max_iter random_state w given Hfst.
    destruct (null_space M_ k k_skip eigen_solver tol max_iter random_state w)
      as [res w'] eqn:E.
    simpl in Hfst. subst res.
    exact (null_space_not_trailing _ _ _ _ _ _ _ _ _ _ E given eq_refl).
Qed.

End Unreachable.

(** ** Order of the eigenvalues [eigen_decomposition] returns *)

Lemma sort_truncate_ordered (largest : bool) (n : nat) (lambdas : vector) :
  ordered_as largest
    (firstn n (if largest then take_idx 0%Q lambdas (rev (argsort lambdas))
               else take_idx 0%Q lambdas (argsort lambdas))).
Proof.
  destruct largest; simpl; apply StronglySorted_Sorted, StronglySorted_firstn.
  - rewrite take_idx_rev. apply StronglySorted_rev_flip, argsort_ascending.
  - apply argsort_ascending.
Qed.

Lemma reverse_truncate_ordered (largest : bool) (n : nat) (lambdas : vector) :
  StronglySorted Qle lambdas ->
  ordered_as largest (firstn n (if largest then rev lambdas else lambdas)).
Proof.
  intros H. destruct largest; simpl; apply StronglySorted_Sorted, StronglySorted_firstn.
  - apply StronglySorted_rev_flip, H.
  - exact H.
Qed.

Ltac inv_bind H :=
  let a := fresh "a" in let s1 := fresh "w" in
  let H1 := fresh "Hm" in
  apply bind_inr_inv in H; destruct H as (a & s1 & H1 & H).

Section Order.
Import EigenDecomp.
Context {N : Numerics}.

(** The [amg] and [lobpcg] branches sort what the block solver returns;
    the [dense] branch relies on [eigh] returning ascending values, as the
    comment of line 196 says, and reverses them for [largest]. *)
Lemma eigen_decomposition_ordered_unless_arpack (G : matrix) n_components
    (eigen_solver : string) random_state eigen_tol drop_first largest
    (w w' : world) lambdas diffusion_map :
  eigen_solver = "amg" \/ eigen_solver = "lobpcg" \/ eigen_solver = "dense" ->
  (forall A vals vecs, eigh A None = inr (vals, vecs) -> StronglySorted Qle vals) ->
  _is_symmetric G default_tol = true ->
  eigen_decomposition G n_components eigen_solver random_state eigen_tol
    drop_first largest w = (inr (lambdas, diffusion_map), w') ->
  ordered_as largest lambdas.
Proof.
  intros Hs Heigh Hsym H. unfold eigen_decomposition in H. cbv zeta in H.
  rewrite Hsym in H. inv_bind H.
  assert (Hcases : a = "amg" \/ a = "lobpcg" \/ a = "dense").
  { unfold check_eigen_solver in Hm.
    destruct Hs as [-> | [-> | ->]]; simpl in Hm.
    - destruct PYAMG_LOADED; simpl in Hm; [| discriminate Hm].
      injection Hm as <- _. tauto.
    - destruct (_ <? _)%Z; injection Hm as <- _; tauto.
    - injection Hm as <- _; tauto. }
  clear Hm Hs.
  destruct Hcases as [-> | [-> | ->]]; simpl in H.
  - inv_bind H. inv_bind H. inv_bind H. inv_bind H. inv_bind H. inv_bind H.
    destruct a4 as [lam dm]. destruct largest; injection H as <- _ _;
      [apply (sort_truncate_ordered true) | apply (sort_truncate_ordered false)].
  - inv_bind H. inv_bind H.
    destruct a0 as [lam dm]. destruct largest; injection H as <- _ _;
      [apply (sort_truncate_ordered true) | apply (sort_truncate_ordered false)].
  - inv_bind H. destruct a as [lam dm].
    unfold call in Hm. destruct (eigh _ None) as [e | [vals vecs]] eqn:E;
      [discriminate Hm |].
    injection Hm as -> -> _. apply Heigh in E.
    destruct largest; injection H as <- _ _;
      [apply (reverse_truncate_ordered true) | apply (reverse_truncate_ordered false)];
      exact E.
Qed.

(** The [arpack] branch hands back what [eigsh] returned, in the order
    [eigsh] returned it. *)
Lemma eigen_decomposition_arpack_as_returned (G : matrix) n_components
    random_state eigen_tol largest (w : world) :
  _is_symmetric G default_tol = true ->
  exists v0 w',
    draw (check_random_state random_state)
         (fun rs => uniform rs (-1) 1 (shape0 G)) w = (inr v0, w') /\
    eigen_decomposition G n_components "arpack" random_state eigen_tol
      false largest w =
    call (eigsh G n_components (if largest then "LM" else "SM") None
            eigen_tol None v0) w'.
Proof.
  intros Hsym. unfold eigen_decomposition, check_eigen_solver. cbv zeta.
  rewrite Hsym. simpl. rewrite bind_ret_l. simpl.
  unfold bind at 1.
  destruct (draw _ _ w) as [[e | v0] w'] eqn:E.
  - exfalso. exact (raises_only_draw (fun _ => False) _ _ _ _ _ E).
  - exists v0, w'. split; [reflexivity |].
    unfold bind, call. destruct (eigsh _ _ _ _ _ _ _) as [e | [vals vecs]];
      reflexivity.
Qed.

End Order.

(** ** The [arpack] branch and the [largest] flag *)

Lemma not_non_increasing_2_3 : ~ non_increasing [2%Q; 3%Q].
Proof.
  intros H. inversion H as [| a l Hs Hhd]; subst.
  inversion Hhd as [| b l' Hle]; subst.
  unfold Qle in Hle. simpl in Hle. lia.
Qed.

(** C6: on the symmetric matrix diag(1, 2, 3), with libraries that are
    exact on diagonal matrices and an ARPACK that (as ARPACK does) hands
    its values back ascending, [eigen_decomposition] with solver 'arpack'
    and [largest] true returns the two largest eigenvalues as 2, 3: not in
    non-increasing order, and not in the order the 'dense', 'lobpcg' and
    'amg' solvers return them on the same input (3, 2). *)
Theorem eigen_decomposition_arpack_largest_not_reordered :
  let N := Sample.diag_numerics true 0 in
  let w := Sample.world0 (N := N) 0%nat in
  let G := Sample.diag_1_2_3 in
  _is_symmetric G default_tol = true /\
  fst (EigenDecomp.eigen_decomposition (N := N) G 2 "arpack" None 0 false true w)
    = inr ([2%Q; 3%Q], [[0; 1; 0]; [0; 0; 1]]%Q) /\
  ~ ordered_as true [2%Q; 3%Q] /\
  fst (EigenDecomp.eigen_decomposition (N := N) G 2 "dense" None 0 false true w)
    = inr ([3%Q; 2%Q], [[0; 0; 1]; [0; 1; 0]]%Q) /\
  fst (EigenDecomp.eigen_decomposition (N := N) G 2 "amg" None 0 false true w)
    = inr ([3%Q; 2%Q], [[0; 0; 1]; [0; 1; 0]]%Q).
Proof.
  cbv zeta. split; [vm_compute; reflexivity |].
  split; [vm_compute; reflexivity |].
  split; [exact not_non_increasing_2_3 |].
  split; vm_compute; reflexivity.
Qed.

(** ** The shift of [null_space] and its retry *)

Section Retry.
Import EigenDecomp.
Context {N : Numerics}.

(** When the first solve, on [I + M], fails with a [LinAlgError], the
    second solve is on [2 I + (I + M)], and 2 is taken off its values. *)
Lemma null_space_retry_on_shifted_matrix (M_ : matrix) (k k_skip : nat)
    (eigen_solver : string) tol max_iter random_state
    (r : string) (w w0 w1 : world) (msg : string) :
  check_eigen_solver eigen_solver (Some (Z.of_nat (shape0 M_)))
    (Some (Z.of_nat (k + k_skip))) w = (inr r, w0) ->
  r = "amg" \/ r = "lobpcg" ->
  let M1 := madd (identity (shape0 M_)) M_ in
  eigen_decomposition M1 (Nat.min (k + k_skip + 10) (shape0 M1)) r None 0%Q
    false false w0 = (inl (FromLibrary (LinAlgError msg)), w1) ->
  let M2 := madd (mscale 2 (identity (shape0 M1))) M1 in
  null_space M_ k k_skip eigen_solver tol max_iter random_state w =
    match eigen_decomposition M2 (Nat.min (k + k_skip + 10) (shape0 M2)) r
            None 0%Q false false
            (mkWorld (warning_lobpcg_retry :: warnings_issued w1) (np_random w1))
    with
    | (inr p, w2) => (inr (shifted_back 2 k k_skip p), w2)
    | (inl e, w2) => (inl e, w2)
    end.
Proof.
  intros Hcheck Hr M1 Hfail M2. unfold null_space.
  rewrite (bind_inr _ _ _ _ _ Hcheck).
  destruct Hr as [-> | ->]; simpl; unfold try_except, bind;
    fold M1; rewrite Hfail; simpl; fold M2;
    destruct (eigen_decomposition M2 _ _ _ _ _ _ _) as [[e | [vals vecs]] w2];
    reflexivity.
Qed.

End Retry.

Lemma diag_0_1_eigenvalue_1 : is_eigenvalue Sample.diag_0_1 1.
Proof.
  exists [0%Q; 1%Q]. split; [reflexivity |]. split.
  - apply Exists_cons_tl, Exists_cons_hd. intros H. discriminate H.
  - repeat constructor.
Qed.

Lemma diag_0_1_not_eigenvalue_2 : ~ is_eigenvalue Sample.diag_0_1 2.
Proof.
  intros (v & Hlen & Hnz & Heq).
  destruct v as [| a [| b [| c v]]]; try discriminate Hlen.
  cbn in Heq.
  inversion Heq as [| x y l l' Ha Htl]; subst.
  inversion Htl as [| x y l l' Hb _]; subst.
  assert (a == 0)%Q by lra. assert (b == 0)%Q by lra.
  inversion Hnz as [x l Hx | x l Hx]; subst; [tauto |].
  inversion Hx as [x l Hy | x l Hy]; subst; [tauto |].
  inversion Hy.
Qed.

(** C3: on the positive semi-definite matrix diag(0, 1), with solver 'amg'
    and a block solver that breaks down on I + M, the retry of
    [null_space] runs on 2I + (I + M) = diag(3, 4) and takes 2 off: the
    value it returns for k = 1, k_skip = 1 is 2, which is no eigenvalue
    of M (the one it stands for is 1, which the first attempt returns
    when it does not break down). *)
Theorem null_space_retry_shifts_twice :
  let M0 := Sample.diag_0_1 in
  let N := Sample.diag_numerics true 2 in
  let w := Sample.world0 (N := N) 0%nat in
  fst (EigenDecomp.eigen_decomposition (N := N) (madd (identity 2) M0) 2
         "amg" None 0 false false w)
    = inl (FromLibrary (LinAlgError "matrix is not positive definite")) /\
  rows (madd (mscale 2 (identity 2)) (madd (identity 2) M0))
    = [[3; 0]; [0; 4]]%Q /\
  fst (EigenDecomp.null_space (N := N) M0 1 1 "amg" (1 # 1000000) 100 None w)
    = inr ([[0; 1]]%Q, 2%Q) /\
  ~ is_eigenvalue M0 2 /\
  is_eigenvalue M0 1 /\
  let N' := Sample.diag_numerics true 0 in
  fst (EigenDecomp.null_space (N := N') M0 1 1 "amg" (1 # 1000000) 100 None
         (Sample.world0 (N := N') 0%nat))
    = inr ([[0; 1]]%Q, 1%Q).
Proof.
  cbv zeta. repeat split; try (vm_compute; reflexivity).
  - exact diag_0_1_not_eigenvalue_2.
  - exact diag_0_1_eigenvalue_1.
Qed.

(** ** The [lobpcg] branch against the [amg] branch *)

Section BlockBranches.
Import EigenDecomp.
Context {N : Numerics}.

Lemma check_eigen_solver_lobpcg_kept (size nvec : Z) (w : world) :
  (5 * nvec + 1 <= size)%Z ->
  check_eigen_solver "lobpcg" (Some size) (Some nvec) w = (inr "lobpcg", w).
Proof.
  intros H. unfold check_eigen_solver. simpl.
  destruct (Z.ltb_spec size (5 * nvec + 1)) as [Hlt | Hge]; [lia | reflexivity].
Qed.

Lemma check_eigen_solver_amg_kept (size nvec : option Z) (w : world) :
  PYAMG_LOADED = true ->
  check_eigen_solver "amg" size nvec w = (inr "amg", w).
Proof.
  intros H. unfold check_eigen_solver. rewrite H. simpl.
  destruct size, nvec; reflexivity.
Qed.

(** C7 (as amended): on a symmetric matrix that is large enough for
    'lobpcg' to be kept, the [lobpcg] branch is the block iteration on an
    initial block of min(N, 5+2k) random vectors, sorted and truncated,
    without preconditioner and without the diagonal in the first column;
    the [amg] branch is the same block iteration, with the same block
    size, sort and truncation, on the block with the diagonal as first
    column and with the multigrid preconditioner. *)
Theorem lobpcg_branch_is_unseeded_block_iteration (G : matrix)
    (n_components : nat) random_state eigen_tol (drop_first largest : bool)
    (w : world) :
  let k := if drop_first then (n_components + 1)%nat else n_components in
  _is_symmetric G default_tol = true ->
  (5 * k + 1 <= shape0 G)%nat ->
  eigen_decomposition G n_components "lobpcg" random_state eigen_tol
    drop_first largest w
  = block_iteration false None G k (check_random_state random_state) largest w
  /\
  (PYAMG_LOADED = true ->
   eigen_decomposition G n_components "amg" random_state eigen_tol
     drop_first largest w
   = ((if negb (issparse G) then warn warning_amg_dense else ret tt) ;;;
      G_csr <- checked (check_array_csr G) ;;
      M_ <- call (smoothed_aggregation_preconditioner G_csr) ;;
      block_iteration true (Some M_) G k (check_random_state random_state)
        largest)%py w).
Proof.
  intros k Hsym Hsize. split.
  - unfold eigen_decomposition. cbv zeta. fold k. rewrite Hsym.
    assert (Hkept : (5 * Z.of_nat k + 1 <= Z.of_nat (shape0 G))%Z) by lia.
    rewrite (bind_inr _ _ _ _ _ (check_eigen_solver_lobpcg_kept _ _ w Hkept)).
    simpl. unfold block_iteration, bind, ret, call.
    destruct (draw _ _ w) as [[e | X_] w1]; [reflexivity |].
    destruct (lobpcg G X_ None largest) as [e | [lambdas vecs]]; [reflexivity |].
    destruct largest; reflexivity.
  - intros Hloaded. unfold eigen_decomposition. cbv zeta. fold k. rewrite Hsym.
    rewrite (bind_inr _ _ _ _ _ (check_eigen_solver_amg_kept _ _ w Hloaded)).
    simpl. unfold block_iteration, bind.
    destruct ((if negb (issparse G) then warn warning_amg_dense else ret tt) w)
      as [[e | []] w1]; [reflexivity |].
    destruct (checked (check_array_csr G) w1) as [[e | G_csr] w2]; [reflexivity |].
    destruct (call (smoothed_aggregation_preconditioner G_csr) w2)
      as [[e | M_] w3]; [reflexivity |].
    destruct (draw _ _ w3) as [[e | X_] w4]; [reflexivity |].
    destruct (lift (set_first_column X_ (diagonal G)) w4) as [[e | X'] w5];
      [reflexivity |].
    unfold call, ret.
    destruct (lobpcg G X' (Some M_) largest) as [e | [lambdas vecs]];
      [reflexivity |].
    destruct largest; reflexivity.
Qed.

End BlockBranches.

(** The amended C7 at diag(1, ..., 6), one vector, [largest] false. *)
Lemma lobpcg_branch_is_unseeded_block_iteration_witness :
  let N := Sample.probe_numerics in
  let G := Sample.diag_1_to_6 in
  let w := Sample.world0 (N := N) 0%nat in
  (_is_symmetric G default_tol = true /\ (5 * 1 + 1 <= shape0 G)%nat) /\
  (EigenDecomp.eigen_decomposition (N := N) G 1 "lobpcg" None 0 false false w
   = block_iteration (N := N) false None G 1
       (EigenDecomp.check_random_state None) false w
   /\
   (PYAMG_LOADED = true ->
    EigenDecomp.eigen_decomposition (N := N) G 1 "amg" None 0 false false w
    = ((if negb (issparse G) then EigenDecomp.warn EigenDecomp.warning_amg_dense
        else ret tt) ;;;
       G_csr <- checked (check_array_csr G) ;;
       M_ <- call (smoothed_aggregation_preconditioner G_csr) ;;
       block_iteration true (Some M_) G 1 (EigenDecomp.check_random_state None)
         false)%py w)).
Proof.
  cbv zeta. split.
  - split; [vm_compute; reflexivity | vm_compute; lia].
  - apply (lobpcg_branch_is_unseeded_block_iteration (N := Sample.probe_numerics)
             Sample.diag_1_to_6 1 None 0 false false).
    + vm_compute; reflexivity.
    + vm_compute; lia.
Defined.

(** C7 as stated fails: with a block solver that reports the block it is
    started from, the [lobpcg] branch on diag(1, ..., 6) shows a first
    column of random samples (1/2), where the [amg] branch without its
    preconditioner would show the diagonal (smallest entry 1). *)
Lemma lobpcg_branch_is_not_amg_minus_preconditioner :
  let N := Sample.probe_numerics in
  let G := Sample.diag_1_to_6 in
  let w := Sample.world0 (N := N) 0%nat in
  _is_symmetric G default_tol = true /\
  fst (EigenDecomp.eigen_decomposition (N := N) G 1 "lobpcg" None 0 false false w)
    = inr ([(1 # 2)%Q], [repeat (1 # 2)%Q 6]) /\
  fst (amg_minus_preconditioner (N := N) G 1
         (EigenDecomp.check_random_state None) false w)
    = inr ([1%Q], [[1; 2; 3; 4; 5; 6]%Q]) /\
  fst (EigenDecomp.eigen_decomposition (N := N) G 1 "lobpcg" None 0 false false w)
    <> fst (amg_minus_preconditioner (N := N) G 1
              (EigenDecomp.check_random_state None) false w).
Proof.
  cbv zeta. repeat split; try (vm_compute; reflexivity).
  vm_compute. intros H. discriminate H.
Qed.

(** ** The Geometry store *)

Section GeometryFacts.
Import Geometry.
Context {C : Collaborators}.

Lemma lookup_alloc (h : list array) (v : array) :
  (h ++ [v]) !! length h = Some v.
Proof. apply list_lookup_middle. reflexivity. Qed.

Lemma lookup_alloc_old (h : list array) (v : array) (l : loc) (u : array) :
  h !! l = Some u -> (h ++ [v]) !! l = Some u.
Proof. intros H. apply lookup_app_l_Some. exact H. Qed.

(** What one call of [compute_adjacency_matrix] does with data present:
    the collaborator runs on the data with the stored keywords updated by
    the call's, its result is a new object and the new value of the
    attribute, and no other attribute changes. *)
Lemma compute_adjacency_matrix_run (copy : bool) (kwargs : gmap string pyvalue)
    (st : store) (x : loc) (Xv : array) :
  X (self st) = Some x -> heap st !! x = Some Xv ->
  let A := ext_compute_adjacency_matrix Xv (adjacency_method (self st))
             (merged_kwds (adjacency_kwds (self st)) kwargs) in
  let a := length (heap st) in
  let self' := with_adjacency_matrix (Some a) (self st) in
  compute_adjacency_matrix copy kwargs st =
    if copy then (inr (S a), mkStore ((heap st ++ [A]) ++ [A]) self')
    else (inr a, mkStore (heap st ++ [A]) self').
Proof.
  intros HX Hx A a self'. unfold compute_adjacency_matrix, bind, getattr.
  rewrite HX. unfold deref at 1. rewrite Hx. simpl.
  destruct copy; [| reflexivity].
  unfold copy_of, bind, deref. simpl. rewrite lookup_alloc. simpl.
  unfold alloc. simpl. rewrite length_app. simpl.
  replace (length (heap st) + 1)%nat with (S (length (heap st))) by lia.
  reflexivity.
Qed.

(** Without data it raises, whatever else the instance holds. *)
Lemma compute_adjacency_matrix_no_data (copy : bool)
    (kwargs : gmap string pyvalue) (st : store) :
  X (self st) = None ->
  compute_adjacency_matrix copy kwargs st = (inl (ValueError NoDataMatrix), st).
Proof.
  intros HX. unfold compute_adjacency_matrix, bind, getattr. rewrite HX.
  reflexivity.
Qed.

(** A reference that names no object. *)
Lemma compute_adjacency_matrix_dangling (copy : bool)
    (kwargs : gmap string pyvalue) (st : store) (x : loc) :
  X (self st) = Some x -> heap st !! x = None ->
  compute_adjacency_matrix copy kwargs st = (inl (TypeError "no such object"), st).
Proof.
  intros HX Hx. unfold compute_adjacency_matrix, bind, getattr. rewrite HX.
  unfold deref. rewrite Hx. reflexivity.
Qed.

(** The stored keywords are never assigned. *)
Lemma compute_adjacency_matrix_keeps_kwds (copy : bool)
    (kwargs : gmap string pyvalue) (st : store) :
  adjacency_kwds (self (snd (compute_adjacency_matrix copy kwargs st)))
    = adjacency_kwds (self st).
Proof.
  destruct (X (self st)) as [x |] eqn:HX.
  - destruct (heap st !! x) as [Xv |] eqn:Hx.
    + rewrite (compute_adjacency_matrix_run copy kwargs st x Xv HX Hx).
      destruct copy; reflexivity.
    + rewrite (compute_adjacency_matrix_dangling copy kwargs st x HX Hx).
      reflexivity.
  - rewrite (compute_adjacency_matrix_no_data copy kwargs st HX). reflexivity.
Qed.

(** So a later call without keywords runs the collaborator on the stored
    keywords alone: what an earlier call passed is gone. *)
Lemma compute_adjacency_matrix_forgets_kwargs (kwargs : gmap string pyvalue)
    (st : store) (x : loc) (Xv : array) :
  X (self st) = Some x -> heap st !! x = Some Xv ->
  let st1 := snd (compute_adjacency_matrix false kwargs st) in
  exists a st2,
    compute_adjacency_matrix false ∅ st1 = (inr a, st2) /\
    heap st2 !! a =
      Some (ext_compute_adjacency_matrix Xv (adjacency_method (self st))
              (merged_kwds (adjacency_kwds (self st)) ∅)).
Proof.
  intros HX Hx st1. subst st1.
  rewrite (compute_adjacency_matrix_run false kwargs st x Xv HX Hx). simpl.
  eexists _, _. split.
  - apply (compute_adjacency_matrix_run false ∅ _ x Xv); simpl.
    + exact HX.
    + apply lookup_alloc_old, Hx.
  - simpl. apply lookup_alloc.
Qed.

End GeometryFacts.

Section GeometryClaims.
Import Geometry.
Context {C : Collaborators}.

(** What [compute_affinity_matrix] does with an adjacency matrix present:
    it does not look at the data. *)
Lemma compute_affinity_matrix_run (copy : bool) (kwargs : gmap string pyvalue)
    (st : store) (a : loc) (Av : array) :
  adjacency_matrix (self st) = Some a -> heap st !! a = Some Av ->
  let F := ext_compute_affinity_matrix Av (affinity_method (self st))
             (merged_kwds (affinity_kwds (self st)) kwargs) in
  let f := length (heap st) in
  let self' := with_affinity_matrix (Some f) (self st) in
  compute_affinity_matrix copy kwargs st =
    if copy then (inr (S f), mkStore ((heap st ++ [F]) ++ [F]) self')
    else (inr f, mkStore (heap st ++ [F]) self').
Proof.
  intros HA Ha F f self'. unfold compute_affinity_matrix, bind, getattr.
  rewrite HA. simpl. rewrite HA. unfold deref at 1. rewrite Ha. simpl.
  destruct copy; [| reflexivity].
  unfold copy_of, bind, deref. simpl. rewrite lookup_alloc. simpl.
  unfold alloc. simpl. rewrite length_app. simpl.
  replace (length (heap st) + 1)%nat with (S (length (heap st))) by lia.
  reflexivity.
Qed.

Lemma compute_affinity_matrix_dangling (copy : bool)
    (kwargs : gmap string pyvalue) (st : store) (a : loc) :
  adjacency_matrix (self st) = Some a -> heap st !! a = None ->
  compute_affinity_matrix copy kwargs st = (inl (TypeError "no such object"), st).
Proof.
  intros HA Ha. unfold compute_affinity_matrix, bind, getattr.
  rewrite HA. simpl. rewrite HA. unfold deref. rewrite Ha. reflexivity.
Qed.

(** With no adjacency matrix it first calls [compute_adjacency_matrix()],
    whose missing-data error propagates. *)
Lemma compute_affinity_matrix_no_source (copy : bool)
    (kwargs : gmap string pyvalue) (st : store) :
  adjacency_matrix (self st) = None -> X (self st) = None ->
  compute_affinity_matrix copy kwargs st = (inl (ValueError NoDataMatrix), st).
Proof.
  intros HA HX. unfold compute_affinity_matrix, bind, getattr. rewrite HA.
  rewrite (compute_adjacency_matrix_no_data false ∅ st HX). reflexivity.
Qed.

Lemma compute_affinity_matrix_derive_dangling (copy : bool)
    (kwargs : gmap string pyvalue) (st : store) (x : loc) :
  adjacency_matrix (self st) = None ->
  X (self st) = Some x -> heap st !! x = None ->
  compute_affinity_matrix copy kwargs st = (inl (TypeError "no such object"), st).
Proof.
  intros HA HX Hx. unfold compute_affinity_matrix, bind, getattr. rewrite HA.
  rewrite (compute_adjacency_matrix_dangling false ∅ st x HX Hx). reflexivity.
Qed.

Lemma compute_affinity_matrix_derive_run (copy : bool)
    (kwargs : gmap string pyvalue) (st : store) (x : loc) (Xv : array) :
  adjacency_matrix (self st) = None ->
  X (self st) = Some x -> heap st !! x = Some Xv ->
  exists r st', compute_affinity_matrix copy kwargs st = (inr r, st').
Proof.
  intros HA HX Hx. unfold compute_affinity_matrix. unfold bind at 1.
  unfold getattr at 1. rewrite HA. unfold bind at 1. unfold bind at 1.
  rewrite (compute_adjacency_matrix_run false ∅ st x Xv HX Hx).
  cbv zeta. unfold ret at 1. unfold bind, getattr, deref. simpl.
  rewrite lookup_alloc. simpl.
  destruct copy; [| eexists _, _; reflexivity].
  unfold copy_of, bind, deref. simpl. rewrite lookup_alloc. simpl.
  eexists _, _; reflexivity.
Qed.

(** C5 (as amended): [compute_adjacency_matrix] raises the missing-data
    error exactly when no dataset is set, whether or not an adjacency
    matrix was set; [compute_affinity_matrix], the path that derives the
    adjacency matrix on demand, raises it exactly when no dataset is set
    and no adjacency matrix is held. *)
Theorem missing_data_error_exactly (copy : bool) (kwargs : gmap string pyvalue)
    (st : store) :
  (fst (compute_adjacency_matrix copy kwargs st) = inl (ValueError NoDataMatrix)
   <-> X (self st) = None) /\
  (fst (compute_affinity_matrix copy kwargs st) = inl (ValueError NoDataMatrix)
   <-> X (self st) = None /\ adjacency_matrix (self st) = None).
Proof.
  split.
  - destruct (X (self st)) as [x |] eqn:HX.
    + split; [| discriminate].
      destruct (heap st !! x) as [Xv |] eqn:Hx.
      * rewrite (compute_adjacency_matrix_run copy kwargs st x Xv HX Hx).
        destruct copy; discriminate.
      * rewrite (compute_adjacency_matrix_dangling copy kwargs st x HX Hx).
        discriminate.
    + rewrite (compute_adjacency_matrix_no_data copy kwargs st HX).
      split; reflexivity.
  - destruct (adjacency_matrix (self st)) as [a |] eqn:HA.
    + split; [| intros [_ H]; discriminate H].
      destruct (heap st !! a) as [Av |] eqn:Ha.
      * rewrite (compute_affinity_matrix_run copy kwargs st a Av HA Ha).
        destruct copy; discriminate.
      * rewrite (compute_affinity_matrix_dangling copy kwargs st a HA Ha).
        discriminate.
    + destruct (X (self st)) as [x |] eqn:HX.
      * split; [| intros [H _]; discriminate H].
        destruct (heap st !! x) as [Xv |] eqn:Hx.
        -- destruct (compute_affinity_matrix_derive_run copy kwargs st x Xv
                       HA HX Hx) as (r & st' & ->).
           discriminate.
        -- rewrite (compute_affinity_matrix_derive_dangling copy kwargs st x
                      HA HX Hx).
           discriminate.
      * rewrite (compute_affinity_matrix_no_source copy kwargs st HA HX).
        split; [intros _; split; reflexivity | reflexivity].
Qed.


(** Two calls never return the same object: each one computes anew. *)
Lemma compute_adjacency_matrix_recomputes (st : store) (x : loc) (Xv : array) :
  X (self st) = Some x -> heap st !! x = Some Xv ->
  exists a1 st1 a2 st2,
    compute_adjacency_matrix false ∅ st = (inr a1, st1) /\
    compute_adjacency_matrix false ∅ st1 = (inr a2, st2) /\
    a1 <> a2.
Proof.
  intros HX Hx.
  pose proof (compute_adjacency_matrix_run false ∅ st x Xv HX Hx) as R1.
  cbv zeta in R1. eexists _, _, _, _. split; [exact R1 |]. split.
  - apply (compute_adjacency_matrix_run false ∅ _ x Xv); simpl;
      [exact HX | apply lookup_alloc_old, Hx].
  - simpl. rewrite length_app. simpl. lia.
Qed.

Lemma deref_inr (r : option loc) (st st' : store) (v : array) :
  deref r st = (inr v, st') ->
  st' = st /\ exists l, r = Some l /\ heap st !! l = Some v.
Proof.
  unfold deref. destruct r as [l |]; [| discriminate].
  destruct (heap st !! l) as [u |] eqn:E; [| discriminate].
  intros [= -> ->]. split; [reflexivity |]. exists l. split; [reflexivity | exact E].
Qed.

(** A successful [compute_laplacian_matrix] with [return_lapsym] true
    stores the three outputs of the collaborator in the three attributes,
    and returns one reference, to the Laplacian. *)
Lemma compute_laplacian_matrix_full_output (copy : bool)
    (kwargs : gmap string pyvalue) (st0 st : store) (r : loc) :
  compute_laplacian_matrix copy true kwargs st0 = (inr r, st) ->
  exists (Fv L Lsym W : array) (kw : gmap string pyvalue) (l ls lw : loc),
    ext_compute_laplacian_matrix_full Fv (laplacian_method (self st)) kw
      = (L, Lsym, W) /\
    kw !! "full_output" = Some (PyBool true) /\
    laplacian_matrix (self st) = Some l /\ heap st !! l = Some L /\
    laplacian_symmetric (self st) = Some ls /\ heap st !! ls = Some Lsym /\
    laplacian_weights (self st) = Some lw /\ heap st !! lw = Some W /\
    heap st !! r = Some L /\
    (r = l <-> copy = false).
Proof.
  intros H. unfold compute_laplacian_matrix in H.
  inv_bind H. inv_bind H. inv_bind H. inv_bind H. inv_bind H. inv_bind H. inv_bind H.
  clear Hm Hm0.
  unfold getattr in Hm1, Hm2, Hm4.
  injection Hm1 as <- <-. injection Hm2 as <- <-.
  apply deref_inr in Hm3 as (-> & f & Hf & HFv).
  injection Hm4 as <- <-.
  destruct (ext_compute_laplacian_matrix_full _ _ _) as [[L Lsym] W] eqn:Eext.
  unfold bind, alloc, setattr in Hm5. simpl in Hm5.
  injection Hm5 as _ Hw5. subst w5.
  set (h := heap w0) in *.
  assert (Hl : (((h ++ [L]) ++ [Lsym]) ++ [W]) !! length h = Some L).
  { apply lookup_alloc_old, lookup_alloc_old, lookup_alloc. }
  assert (Hls : (((h ++ [L]) ++ [Lsym]) ++ [W]) !! length (h ++ [L]) = Some Lsym).
  { apply lookup_alloc_old, lookup_alloc. }
  assert (Hlw : (((h ++ [L]) ++ [Lsym]) ++ [W]) !! length ((h ++ [L]) ++ [Lsym])
                = Some W).
  { apply lookup_alloc. }
  unfold bind, getattr in H. simpl in H.
  exists a3, L, Lsym, W, (<["full_output" := PyBool true]>
                            (merged_kwds (laplacian_kwds (self w0)) kwargs)),
         (length h), (length (h ++ [L])), (length ((h ++ [L]) ++ [Lsym])).
  destruct copy.
  - unfold copy_of, bind, deref in H. simpl in H. fold h in H.
    unfold loc in H. rewrite Hl in H.
    unfold alloc in H. simpl in H. injection H as <- <-.
    simpl. split; [exact Eext |]. split; [apply lookup_insert_eq |].
    split; [reflexivity |]. split; [apply lookup_alloc_old, Hl |].
    split; [reflexivity |]. split; [apply lookup_alloc_old, Hls |].
    split; [reflexivity |]. split; [apply lookup_alloc_old, Hlw |].
    split; [apply lookup_alloc |].
    split; [| discriminate]. rewrite !length_app. simpl. lia.
  - unfold ret in H. injection H as <- <-.
    simpl. split; [exact Eext |]. split; [apply lookup_insert_eq |].
    split; [reflexivity |]. split; [exact Hl |].
    split; [reflexivity |]. split; [exact Hls |].
    split; [reflexivity |]. split; [exact Hlw |].
    split; [exact Hl |]. split; reflexivity.
Qed.

(** C9: [delete_laplacian_matrix] sets the attribute [laplacian_matrix]
    to [None] and nothing else: the heap and the eleven other attributes
    are as before; in particular the symmetric Laplacian and the weights
    that a [compute_laplacian_matrix] with [return_lapsym] true has
    stored are still held, with their values. *)
Theorem delete_laplacian_matrix_frame (st : store) :
  exists st' : store,
    delete_laplacian_matrix st = (inr tt, st') /\
    laplacian_matrix (self st') = None /\
    heap st' = heap st /\
    laplacian_symmetric (self st') = laplacian_symmetric (self st) /\
    laplacian_weights (self st') = laplacian_weights (self st) /\
    X (self st') = X (self st) /\
    adjacency_matrix (self st') = adjacency_matrix (self st) /\
    affinity_matrix (self st') = affinity_matrix (self st) /\
    adjacency_method (self st') = adjacency_method (self st) /\
    adjacency_kwds (self st') = adjacency_kwds (self st) /\
    affinity_method (self st') = affinity_method (self st) /\
    affinity_kwds (self st') = affinity_kwds (self st) /\
    laplacian_method (self st') = laplacian_method (self st) /\
    laplacian_kwds (self st') = laplacian_kwds (self st) /\
    (forall copy kwargs st0 r,
       compute_laplacian_matrix copy true kwargs st0 = (inr r, st) ->
       exists (ls lw : loc) (Lsym W : array),
         laplacian_symmetric (self st') = Some ls /\
         heap st' !! ls = Some Lsym /\
         laplacian_weights (self st') = Some lw /\
         heap st' !! lw = Some W /\
         laplacian_symmetric (self st) = Some ls /\
         heap st !! ls = Some Lsym /\
         laplacian_weights (self st) = Some lw /\
         heap st !! lw = Some W).
Proof.
  exists (mkStore (heap st) (with_laplacian_matrix None (self st))).
  repeat (split; [reflexivity |]).
  intros copy kwargs st0 r H.
  apply compute_laplacian_matrix_full_output in H
    as (Fv & L & Lsym & W & kw & l & ls & lw & _ & _ & _ & _ & Hs & Hsv & Hw & Hwv & _).
  exists ls, lw, Lsym, W. simpl. auto 10.
Qed.

End GeometryClaims.

(** ** The claims on concrete stores *)

Section OnTheLine.
Import Geometry Sample.

#[local] Existing Instance line_collaborators.

(** C1: on three points 0, 1, 3 with no stored keywords, a call with
    [radius=2] computes the graph of radius 2 and leaves the stored
    keywords as they were ([None]); the next call, without keywords,
    computes the graph of the default radius 1, not the graph of radius 2
    that keywords persisting across calls would give. *)
Theorem compute_adjacency_matrix_kwargs_not_kept :
  let c1 := compute_adjacency_matrix false {["radius" := PyInt 2]} store_with_data in
  let c2 := compute_adjacency_matrix false ∅ (snd c1) in
  fst c1 = inr 1%nat /\
  heap (snd c1) !! 1%nat = Some [[0; 1; 0]; [1; 0; 2]; [0; 2; 0]] /\
  adjacency_kwds (self (snd c1)) = None /\
  fst c2 = inr 2%nat /\
  heap (snd c2) !! 2%nat = Some [[0; 1; 0]; [1; 0; 0]; [0; 0; 0]] /\
  line_adjacency three_points "auto" ∅ = [[0; 1; 0]; [1; 0; 0]; [0; 0; 0]] /\
  line_adjacency three_points "auto" {["radius" := PyInt 2]}
    = [[0; 1; 0]; [1; 0; 2]; [0; 2; 0]].
Proof. cbv zeta. repeat split; vm_compute; reflexivity. Qed.

(** C2: on the same data, [compute_laplacian_matrix] with [return_lapsym]
    true (and the default [copy]) returns one reference, to a copy of the
    Laplacian, as it does with [return_lapsym] false; the symmetric form
    and the weights are stored in the attributes and are not returned. *)
Theorem compute_laplacian_matrix_returns_laplacian_alone :
  let full := compute_laplacian_matrix true true ∅ store_with_data in
  let only := compute_laplacian_matrix true false ∅ store_with_data in
  let L := [[1; -1; 0]; [-1; 1; 0]; [0; 0; 0]] in
  fst full = inr 6%nat /\
  heap (snd full) !! 6%nat = Some L /\
  laplacian_matrix (self (snd full)) = Some 3%nat /\
  heap (snd full) !! 3%nat = Some L /\
  laplacian_symmetric (self (snd full)) = Some 4%nat /\
  heap (snd full) !! 4%nat = Some [[2; -2; 0]; [-2; 2; 0]; [0; 0; 0]] /\
  laplacian_weights (self (snd full)) = Some 5%nat /\
  heap (snd full) !! 5%nat = Some [[2; 2; 1]] /\
  fst only = inr 4%nat /\
  heap (snd only) !! 4%nat = Some L.
Proof. cbv zeta. repeat split; vm_compute; reflexivity. Qed.

(** C5 as stated fails: an instance with an adjacency matrix set and no
    data still gets the missing-data error from
    [compute_adjacency_matrix]; [compute_affinity_matrix] goes through. *)
Lemma compute_adjacency_matrix_raises_with_adjacency_set :
  X (self store_with_adjacency) = None /\
  adjacency_matrix (self store_with_adjacency) = Some 0%nat /\
  fst (compute_adjacency_matrix false ∅ store_with_adjacency)
    = inl (ValueError NoDataMatrix) /\
  fst (compute_affinity_matrix false ∅ store_with_adjacency) = inr 1%nat.
Proof. repeat split; vm_compute; reflexivity. Qed.



(** C9 on the three points, after a full Laplacian computation. *)
Lemma delete_laplacian_matrix_frame_witness :
  let st := snd (compute_laplacian_matrix true true ∅ store_with_data) in
  exists st',
    delete_laplacian_matrix st = (inr tt, st') /\
    laplacian_matrix (self st') = None /\
    laplacian_symmetric (self st') = Some 4%nat /\
    laplacian_weights (self st') = Some 5%nat /\
    heap st' = heap st.
Proof.
  cbv zeta.
  destruct (delete_laplacian_matrix_frame (C := line_collaborators)
              (snd (compute_laplacian_matrix true true ∅ store_with_data)))
    as (st' & Hrun & Hnone & Hheap & Hsym & Hw & _).
  exists st'. split; [exact Hrun |]. split; [exact Hnone |].
  split; [rewrite Hsym; reflexivity |].
  split; [rewrite Hw; reflexivity | exact Hheap].
Defined.

End OnTheLine.

(** C10 at solver 'auto' on a 2 by 2 matrix. *)
Lemma null_space_trailing_branch_unreachable_witness :
  let N := Sample.diag_numerics true 0 in
  let w := Sample.world0 (N := N) 0%nat in
  EigenDecomp.check_eigen_solver (N := N) "auto" (Some 2) (Some 2) w
    = (inr "dense", w) /\
  ("dense" = "arpack" \/ "dense" = "dense" \/ "dense" = "amg" \/ "dense" = "lobpcg") /\
  fst (EigenDecomp.null_space (N := N) Sample.diag_0_1 1 1 "auto" (1 # 1000000)
         100 None w)
    <> inl (ValueError (NullSpaceUnrecognized "dense")).
Proof.
  cbv zeta. split; [reflexivity |]. split.
  - apply (proj1 (null_space_trailing_branch_unreachable
                    (N := Sample.diag_numerics true 0))
             "auto" 2 2 (Sample.world0 (N := Sample.diag_numerics true 0) 0%nat)
             (Sample.world0 (N := Sample.diag_numerics true 0) 0%nat) "dense").
    reflexivity.
  - apply (proj2 (null_space_trailing_branch_unreachable
                    (N := Sample.diag_numerics true 0))).
Defined.

(** * Further properties of the two files *)

(** ** [check_eigen_solver] *)

Section SolverNames.
Import EigenDecomp.
Context {N : Numerics}.

Lemma str_in_In (s : string) (l : list string) :
  str_in s l = true <-> In s l.
Proof.
  unfold str_in. rewrite existsb_exists. split.
  - intros (x & Hx & Heq). apply String.eqb_eq in Heq. subst x. exact Hx.
  - intros H. exists s. split; [exact H | apply String.eqb_refl].
Qed.

(** X1: [check_eigen_solver] raises its unrecognized-solver error, naming
    the solver it was given and leaving the state as it was, exactly for
    the names outside [EIGEN_SOLVERS]; sizes play no part in that. *)
Theorem check_eigen_solver_rejects_unknown (s : string) (size nvec : option Z)
    (w : world) :
  check_eigen_solver s size nvec w
    = (inl (ValueError (UnrecognizedEigenSolver s)), w)
  <-> ~ In s EIGEN_SOLVERS.
Proof.
  rewrite <- str_in_In. unfold check_eigen_solver.
  destruct (str_in s EIGEN_SOLVERS) eqn:Hin; simpl.
  - split; [| intros H; exfalso; apply H; reflexivity].
    intros H. exfalso.
    destruct (String.eqb s "amg" && negb PYAMG_LOADED); [discriminate H |].
    destruct size as [sz |], nvec as [nv |]; try discriminate H.
    destruct (String.eqb s "lobpcg" && (sz <? 5 * nv + 1)%Z); [discriminate H |].
    destruct (String.eqb s "auto"); [| discriminate H].
    destruct ((sz >? 200)%Z && (nv <? 10)%Z); [destruct PYAMG_LOADED |];
      discriminate H.
  - split; [intros _ H; discriminate H | reflexivity].
Qed.

(** X2: without pyamg, asking for 'amg' fails at once with the
    not-available error, whatever the sizes: from [check_eigen_solver],
    and so from [eigen_decomposition] and [null_space], before a warning
    is issued or a random number is drawn. *)
Theorem amg_without_pyamg_fails_at_once :
  PYAMG_LOADED = false ->
  (forall size nvec (w : world),
     check_eigen_solver "amg" size nvec w = (inl (ValueError AmgNotAvailable), w)) /\
  (forall G n_components random_state eigen_tol drop_first largest (w : world),
     eigen_decomposition G n_components "amg" random_state eigen_tol
       drop_first largest w = (inl (ValueError AmgNotAvailable), w)) /\
  (forall M_ k k_skip tol max_iter random_state (w : world),
     null_space M_ k k_skip "amg" tol max_iter random_state w
       = (inl (ValueError AmgNotAvailable), w)).
Proof.
  intros Hno.
  assert (Hc : forall size nvec (w : world),
             check_eigen_solver "amg" size nvec w
               = (inl (ValueError AmgNotAvailable), w)).
  { intros size nvec w. unfold check_eigen_solver. rewrite Hno. reflexivity. }
  split; [exact Hc |]. split.
  - intros. unfold eigen_decomposition. cbv zeta.
    apply bind_inl, Hc.
  - intros. unfold null_space. apply bind_inl, Hc.
Qed.

(** X3: with both sizes known, 'lobpcg' is switched to 'dense', with one
    warning, exactly when [size < 5 * nvec + 1]; otherwise it is kept and
    nothing is warned.  The generator is not touched either way. *)
Theorem check_eigen_solver_lobpcg_switch (size nvec : Z) (w : world) :
  exists (r : string) (w' : world),
    check_eigen_solver "lobpcg" (Some size) (Some nvec) w = (inr r, w') /\
    (r = "dense" <-> (size < 5 * nvec + 1)%Z) /\
    (r = "lobpcg" <-> (5 * nvec + 1 <= size)%Z) /\
    warnings_issued w' =
      (if (size <? 5 * nvec + 1)%Z then [warning_lobpcg_small] else [])
        ++ warnings_issued w /\
    np_random w' = np_random w.
Proof.
  unfold check_eigen_solver. simpl.
  destruct (Z.ltb_spec size (5 * nvec + 1)) as [Hlt | Hge].
  - eexists _, _. split; [reflexivity |]. simpl.
    repeat split; intros; try discriminate; try lia; reflexivity.
  - eexists _, _. split; [reflexivity |]. simpl.
    repeat split; intros; try discriminate; try lia; reflexivity.
Qed.

(** X4: when the size or the vector count is not given, a recognized
    solver name comes back as it was given, 'auto' and 'lobpcg' included
    ('amg' provided pyamg is there), and the state is not touched. *)
Theorem check_eigen_solver_without_sizes (s : string) (size nvec : option Z)
    (w : world) :
  In s EIGEN_SOLVERS ->
  (s = "amg" -> PYAMG_LOADED = true) ->
  size = None \/ nvec = None ->
  check_eigen_solver s size nvec w = (inr s, w).
Proof.
  intros Hin Hamg Hnone. unfold check_eigen_solver.
  apply str_in_In in Hin. rewrite Hin. simpl.
  destruct (String.eqb s "amg") eqn:E.
  - apply String.eqb_eq in E. rewrite (Hamg E). simpl.
    destruct Hnone as [-> | ->]; [reflexivity | destruct size; reflexivity].
  - simpl. destruct Hnone as [-> | ->]; [reflexivity | destruct size; reflexivity].
Qed.

(** X5: resolving is idempotent: what [check_eigen_solver] returns for
    given sizes is returned again, without a warning, when it is checked
    again for the same sizes. *)
Theorem check_eigen_solver_idempotent (s : string) (size nvec : Z)
    (w w' : world) (r : string) :
  check_eigen_solver s (Some size) (Some nvec) w = (inr r, w') ->
  check_eigen_solver r (Some size) (Some nvec) w' = (inr r, w').
Proof.
  intros H. unfold check_eigen_solver in H.
  destruct (str_in s EIGEN_SOLVERS) eqn:Hin; simpl in H; [| discriminate H].
  apply str_in_EIGEN_SOLVERS in Hin.
  destruct Hin as [-> | [-> | [-> | [-> | ->]]]]; simpl in H.
  - destruct ((size >? 200)%Z && (nvec <? 10)%Z) eqn:Hsz.
    + destruct PYAMG_LOADED eqn:HL; injection H as <- <-;
        unfold check_eigen_solver; simpl; rewrite ?HL; reflexivity.
    + injection H as <- <-. reflexivity.
  - injection H as <- <-. reflexivity.
  - injection H as <- <-. reflexivity.
  - destruct (size <? 5 * nvec + 1)%Z eqn:Hlt.
    + injection H as <- <-. reflexivity.
    + injection H as <- <-. unfold check_eigen_solver. simpl. rewrite Hlt.
      reflexivity.
  - destruct PYAMG_LOADED eqn:HL; simpl in H; [| discriminate H].
    injection H as <- <-. unfold check_eigen_solver. simpl. rewrite HL.
    reflexivity.
Qed.

End SolverNames.

(** ** [eigen_decomposition] *)

(** [np.argsort] lists every index once. *)
Lemma insert_by_Permutation (key : nat -> Q) (i : nat) (l : list nat) :
  Permutation (insert_by key i l) (i :: l).
Proof.
  induction l as [| j t IH]; simpl.
  - reflexivity.
  - destruct (Qle_bool (key i) (key j)).
    + reflexivity.
    + rewrite IH. apply perm_swap.
Qed.

Lemma argsort_Permutation (v : vector) :
  Permutation (argsort v) (seq 0 (length v)).
Proof.
  unfold argsort. induction (seq 0 (length v)) as [| i l IH]; simpl.
  - reflexivity.
  - rewrite insert_by_Permutation. constructor. exact IH.
Qed.

Lemma take_idx_seq {A} (d : A) (l : list A) :
  take_idx d l (seq 0 (length l)) = l.
Proof.
  unfold take_idx. apply nth_ext with (d := d) (d' := d).
  - rewrite length_map, length_seq. reflexivity.
  - intros n Hn. rewrite length_map, length_seq in Hn.
    rewrite (nth_indep _ d (nth 0 l d)) by (rewrite length_map, length_seq; exact Hn).
    rewrite (map_nth (fun i => nth i l d) (seq 0 (length l)) 0%nat n).
    rewrite seq_nth by exact Hn. reflexivity.
Qed.

Lemma combine_take_idx {A B} (da : A) (db : B) (la : list A) (lb : list B)
    (index : list nat) :
  combine (take_idx da la index) (take_idx db lb index)
    = map (fun i => (nth i la da, nth i lb db)) index.
Proof.
  unfold take_idx. induction index as [| i t IH]; simpl; [reflexivity |].
  rewrite IH. reflexivity.
Qed.

Lemma combine_as_indexed {A B} (da : A) (db : B) (la : list A) (lb : list B) :
  length la = length lb ->
  map (fun i => (nth i la da, nth i lb db)) (seq 0 (length la)) = combine la lb.
Proof.
  intros Hlen. apply nth_ext with (d := (da, db)) (d' := (da, db)).
  - rewrite length_map, length_seq, length_combine. lia.
  - intros n Hn. rewrite length_map, length_seq in Hn.
    rewrite (nth_indep _ (da, db) ((fun i => (nth i la da, nth i lb db)) 0%nat))
      by (rewrite length_map, length_seq; exact Hn).
    rewrite (map_nth (fun i => (nth i la da, nth i lb db))).
    rewrite seq_nth by exact Hn. simpl.
    rewrite combine_nth by exact Hlen. reflexivity.
Qed.

(** Sorting values and vectors by [np.argsort] of the values keeps every
    pair together and loses none. *)
Lemma sorted_pairs_Permutation (largest : bool) (vals : vector) (vecs : columns) :
  length vals = length vecs ->
  let order := if largest then rev (argsort vals) else argsort vals in
  Permutation (combine (take_idx 0%Q vals order) (take_idx [] vecs order))
              (combine vals vecs).
Proof.
  intros Hlen order. rewrite combine_take_idx.
  rewrite <- (combine_as_indexed 0%Q [] vals vecs Hlen).
  apply Permutation_map. subst order. destruct largest.
  - rewrite <- Permutation_rev. apply argsort_Permutation.
  - apply argsort_Permutation.
Qed.

Section Decomposition.
Import EigenDecomp.
Context {N : Numerics}.

(** X6: on a matrix with fewer than [5 k + 1] rows, [k] being the number
    of vectors asked for (one more with [drop_first]),
    [eigen_decomposition] with 'lobpcg' is [eigen_decomposition] with
    'dense' after one warning: the block solver is not run. *)
Theorem eigen_decomposition_lobpcg_small_is_dense (G : matrix)
    (n_components : nat) random_state eigen_tol (drop_first largest : bool)
    (w : world) :
  let k := if drop_first then (n_components + 1)%nat else n_components in
  (shape0 G < 5 * k + 1)%nat ->
  eigen_decomposition G n_components "lobpcg" random_state eigen_tol
    drop_first largest w
  = eigen_decomposition G n_components "dense" random_state eigen_tol
      drop_first largest (warned warning_lobpcg_small w).
Proof.
  intros k Hsmall. unfold eigen_decomposition. cbv zeta. fold k.
  unfold check_eigen_solver. simpl.
  destruct (Z.ltb_spec (Z.of_nat (shape0 G)) (5 * Z.of_nat k + 1)) as [Hlt | Hge];
    [| lia].
  reflexivity.
Qed.

(** X7: on a matrix that fails the symmetry test, 'amg' (with pyamg) and
    'lobpcg' (when it is kept) raise the requires-symmetric error and do
    nothing else: no warning, no draw from the generator. *)
Theorem block_solvers_refuse_asymmetric (G : matrix) (n_components : nat)
    random_state eigen_tol (drop_first largest : bool) (w : world) :
  let k := if drop_first then (n_components + 1)%nat else n_components in
  _is_symmetric G default_tol = false ->
  (PYAMG_LOADED = true ->
   eigen_decomposition G n_components "amg" random_state eigen_tol
     drop_first largest w = (inl (ValueError LobpcgRequiresSymmetric), w)) /\
  ((5 * k + 1 <= shape0 G)%nat ->
   eigen_decomposition G n_components "lobpcg" random_state eigen_tol
     drop_first largest w = (inl (ValueError LobpcgRequiresSymmetric), w)).
Proof.
  intros k Hasym. split.
  - intros Hloaded. unfold eigen_decomposition. cbv zeta. fold k.
    rewrite (bind_inr _ _ _ _ _ (check_eigen_solver_amg_kept _ _ w Hloaded)).
    simpl. rewrite Hasym. reflexivity.
  - intros Hsize. unfold eigen_decomposition. cbv zeta. fold k.
    assert (Hkept : (5 * Z.of_nat k + 1 <= Z.of_nat (shape0 G))%Z) by lia.
    rewrite (bind_inr _ _ _ _ _ (check_eigen_solver_lobpcg_kept _ _ w Hkept)).
    simpl. rewrite Hasym. reflexivity.
Qed.

(** X8: what the 'amg' and 'lobpcg' branches return is cut out of what the
    block solver returned: as many values as vectors, at most [k] of each
    ([k] the number asked for, one more with [drop_first]), and, when the
    solver returned as many values as vectors, every returned value next
    to the vector the solver returned it with. *)
Theorem eigen_decomposition_block_pairs (G : matrix) (n_components : nat)
    (eigen_solver : string) random_state eigen_tol (drop_first largest : bool)
    (w w' : world) (lambdas : vector) (diffusion_map : columns) :
  let k := if drop_first then (n_components + 1)%nat else n_components in
  (eigen_solver = "amg" \/
   eigen_solver = "lobpcg" /\ (5 * k + 1 <= shape0 G)%nat) ->
  eigen_decomposition G n_components eigen_solver random_state eigen_tol
    drop_first largest w = (inr (lambdas, diffusion_map), w') ->
  exists (X_ : columns) (M_ : option preconditioner) (vals : vector)
         (vecs : columns),
    lobpcg G X_ M_ largest = inr (vals, vecs) /\
    length lambdas = Nat.min k (length vals) /\
    length diffusion_map = Nat.min k (length vals) /\
    (length vals = length vecs ->
     exists rest, Permutation (combine vals vecs)
                    (combine lambdas diffusion_map ++ rest)).
Proof.
  intros k Hs H. unfold eigen_decomposition in H. cbv zeta in H. fold k in H.
  inv_bind H.
  assert (Ha : a = eigen_solver /\ (a = "amg" \/ a = "lobpcg")).
  { destruct Hs as [-> | [-> Hsize]].
    - unfold check_eigen_solver in Hm. simpl in Hm.
      destruct PYAMG_LOADED; simpl in Hm; [| discriminate Hm].
      injection Hm as <- _. tauto.
    - assert (Hkept : (5 * Z.of_nat k + 1 <= Z.of_nat (shape0 G))%Z) by lia.
      rewrite (check_eigen_solver_lobpcg_kept _ _ w Hkept) in Hm.
      injection Hm as <- _. tauto. }
  destruct Ha as [_ Ha]. clear Hm Hs.
  assert (Hcut : forall (vals : vector) (vecs : columns),
            (firstn k (if largest then take_idx 0%Q vals (rev (argsort vals))
                       else take_idx 0%Q vals (argsort vals)),
             firstn k (if largest then take_idx [] vecs (rev (argsort vals))
                       else take_idx [] vecs (argsort vals)))
              = (lambdas, diffusion_map) ->
            length lambdas = Nat.min k (length vals) /\
            length diffusion_map = Nat.min k (length vals) /\
            (length vals = length vecs ->
             exists rest, Permutation (combine vals vecs)
                            (combine lambdas diffusion_map ++ rest))).
  { intros vals vecs Heq. injection Heq as <- <-.
    assert (Hlen : forall A (d : A) (l : list A),
               length (if largest then take_idx d l (rev (argsort vals))
                       else take_idx d l (argsort vals)) = length vals).
    { intros A d l. destruct largest; unfold take_idx;
        rewrite length_map, ?length_rev;
        rewrite (Permutation_length (argsort_Permutation vals));
        apply length_seq. }
    split; [rewrite length_firstn, Hlen; reflexivity |].
    split; [rewrite length_firstn, Hlen; reflexivity |].
    intros Hvv.
    exists (skipn k (combine
                (if largest then take_idx 0%Q vals (rev (argsort vals))
                 else take_idx 0%Q vals (argsort vals))
                (if largest then take_idx [] vecs (rev (argsort vals))
                 else take_idx [] vecs (argsort vals)))).
    rewrite <- combine_firstn, firstn_skipn.
    pose proof (sorted_pairs_Permutation largest vals vecs Hvv) as HP.
    cbv zeta in HP. symmetry. destruct largest; exact HP. }
  destruct Ha as [-> | ->]; simpl in H.
  - destruct (negb (_is_symmetric G default_tol)); [discriminate H |].
    inv_bind H. inv_bind H. inv_bind H. inv_bind H. inv_bind H. inv_bind H.
    destruct a4 as [vals vecs].
    unfold call in Hm4.
    destruct (lobpcg G a3 (Some a1) largest) as [e | [vals' vecs']] eqn:E;
      [discriminate Hm4 |].
    injection Hm4 as -> -> _.
    exists a3, (Some a1), vals, vecs. split; [exact E |].
    apply Hcut. destruct largest; injection H as <- <- _; reflexivity.
  - destruct (negb (_is_symmetric G default_tol)); [discriminate H |].
    inv_bind H. inv_bind H.
    destruct a0 as [vals vecs].
    unfold call in Hm0.
    destruct (lobpcg G a None largest) as [e | [vals' vecs']] eqn:E;
      [discriminate Hm0 |].
    injection Hm0 as -> -> _.
    exists a, None, vals, vecs. split; [exact E |].
    apply Hcut. destruct largest; injection H as <- <- _; reflexivity.
Qed.

End Decomposition.

(** ** [null_space] *)

Section NullSpace.
Import EigenDecomp.
Context {N : Numerics}.

Lemma draw_returns {A} (g : generator) (sample : RandomState -> A * RandomState)
    (w : world) :
  exists a w', draw g sample w = (inr a, w') /\
               warnings_issued w' = warnings_issued w.
Proof.
  unfold draw. destruct g as [| rs].
  - destruct (sample (np_random w)) as [a rs']. eexists _, _. split; reflexivity.
  - eexists _, _. split; reflexivity.
Qed.

(** X9: with solver 'arpack', [null_space] draws the start vector, runs
    [eigsh] in shift-invert mode around 0 for [k + k_skip] pairs and
    returns all the vectors from index [k_skip] on with the sum of their
    values; a [RuntimeError] of [eigsh] becomes the null-space error
    carrying its message, any other exception of [eigsh] passes through
    as it is.  No warning is issued. *)
Theorem null_space_arpack (M_ : matrix) (k k_skip : nat) (tol : Q)
    (max_iter : nat) random_state (w : world) :
  exists (v0 : vector) (w1 : world),
    draw (check_random_state random_state)
         (fun rs => uniform rs (-1) 1 (shape0 M_)) w = (inr v0, w1) /\
    warnings_issued w1 = warnings_issued w /\
    null_space M_ k k_skip "arpack" tol max_iter random_state w =
      match eigsh M_ (k + k_skip) "LM" (Some 0%Q) tol (Some max_iter) v0 with
      | inr (eigen_values, eigen_vectors) =>
          (inr (skipn k_skip eigen_vectors, np_sum (skipn k_skip eigen_values)),
           w1)
      | inl (RuntimeError msg) => (inl (ValueError (NullSpaceArpack msg)), w1)
      | inl e => (inl (FromLibrary e), w1)
      end.
Proof.
  destruct (draw_returns (check_random_state random_state)
              (fun rs => uniform rs (-1) 1 (shape0 M_)) w) as (v0 & w1 & Hd & Hw).
  exists v0, w1. split; [exact Hd |]. split; [exact Hw |].
  unfold null_space, check_eigen_solver. simpl. rewrite bind_ret_l. simpl.
  rewrite (bind_inr _ _ _ _ _ Hd).
  unfold bind, try_except, call.
  destruct (eigsh M_ (k + k_skip) "LM" (Some 0%Q) tol (Some max_iter) v0)
    as [[msg | msg | cls msg] | [vals vecs]]; reflexivity.
Qed.

(** X10: with solver 'amg' or 'lobpcg', [null_space] solves for
    [min(k + k_skip + 10, N)] smallest pairs of [I + M]; when that solve
    succeeds its values, less 1, are what the result is cut from, and no
    second solve is made; when it fails with anything but a
    [LinAlgError], that exception is the outcome, again without a second
    solve. *)
Theorem null_space_first_attempt (M_ : matrix) (k k_skip : nat)
    (eigen_solver : string) tol max_iter random_state
    (r : string) (w w0 : world) :
  check_eigen_solver eigen_solver (Some (Z.of_nat (shape0 M_)))
    (Some (Z.of_nat (k + k_skip))) w = (inr r, w0) ->
  r = "amg" \/ r = "lobpcg" ->
  let M1 := madd (identity (shape0 M_)) M_ in
  let first := eigen_decomposition M1 (Nat.min (k + k_skip + 10) (shape0 M1)) r
                 None 0%Q false false w0 in
  (forall p w1, first = (inr p, w1) ->
     null_space M_ k k_skip eigen_solver tol max_iter random_state w
       = (inr (shifted_back 1 k k_skip p), w1)) /\
  (forall e w1, first = (inl e, w1) ->
     (forall msg, e <> FromLibrary (LinAlgError msg)) ->
     null_space M_ k k_skip eigen_solver tol max_iter random_state w
       = (inl e, w1)).
Proof.
  intros Hcheck Hr M1 first. split.
  - intros [vals vecs] w1 Hfirst. unfold null_space.
    rewrite (bind_inr _ _ _ _ _ Hcheck).
    destruct Hr as [-> | ->]; simpl; unfold try_except, bind;
      fold M1; fold first; rewrite Hfirst; reflexivity.
  - intros e w1 Hfirst Hnot. unfold null_space.
    rewrite (bind_inr _ _ _ _ _ Hcheck).
    destruct Hr as [-> | ->]; simpl; unfold try_except, bind;
      fold M1; fold first; rewrite Hfirst;
      (destruct e as [? | [msg | ? | ? ?] | | ? | ?];
       [reflexivity | exfalso; exact (Hnot msg eq_refl) | reflexivity ..]).
Qed.

(** X11: the retry is made once: when the first solve fails with a
    [LinAlgError] and the second solve fails too, with a [LinAlgError] or
    anything else, the exception of the second solve is the outcome of
    [null_space]. *)
Theorem null_space_retries_once (M_ : matrix) (k k_skip : nat)
    (eigen_solver : string) tol max_iter random_state
    (r : string) (w w0 w1 w2 : world) (msg : string) (e : exn) :
  check_eigen_solver eigen_solver (Some (Z.of_nat (shape0 M_)))
    (Some (Z.of_nat (k + k_skip))) w = (inr r, w0) ->
  r = "amg" \/ r = "lobpcg" ->
  let M1 := madd (identity (shape0 M_)) M_ in
  let M2 := madd (mscale 2 (identity (shape0 M1))) M1 in
  eigen_decomposition M1 (Nat.min (k + k_skip + 10) (shape0 M1)) r None 0%Q
    false false w0 = (inl (FromLibrary (LinAlgError msg)), w1) ->
  eigen_decomposition M2 (Nat.min (k + k_skip + 10) (shape0 M2)) r None 0%Q
    false false (warned warning_lobpcg_retry w1) = (inl e, w2) ->
  null_space M_ k k_skip eigen_solver tol max_iter random_state w = (inl e, w2).
Proof.
  intros Hcheck Hr M1 M2 Hfirst Hsecond.
  rewrite (null_space_retry_on_shifted_matrix M_ k k_skip eigen_solver tol
             max_iter random_state r w w0 w1 msg Hcheck Hr Hfirst).
  fold M1. fold M2. unfold warned in Hsecond. rewrite Hsecond. reflexivity.
Qed.

(** X12: with solver 'dense', when [eigh] hands back the
    [k + k_skip + 1] pairs that its index range [(0, k + k_skip)] names,
    [null_space] returns [k + 1 - k_skip] vectors, the columns
    [k_skip .. k] of the pairs sorted by absolute value: [k] vectors for
    [k_skip = 1], one more for [k_skip = 0]. *)
Theorem null_space_dense_count (M_ : matrix) (k k_skip : nat) (tol : Q)
    (max_iter : nat) random_state (w : world)
    (eigen_values : vector) (eigen_vectors : columns) :
  eigh (if issparse M_ then todense M_ else M_) (Some (0, k + k_skip)%nat)
    = inr (eigen_values, eigen_vectors) ->
  length eigen_values = (k + k_skip + 1)%nat ->
  exists (vectors : columns) (error : Q),
    null_space M_ k k_skip "dense" tol max_iter random_state w
      = (inr (vectors, error), w) /\
    length vectors = (k + 1 - k_skip)%nat.
Proof.
  intros Heigh Hlen. unfold null_space, check_eigen_solver. simpl.
  rewrite bind_ret_l. simpl. unfold bind, call. rewrite Heigh.
  eexists _, _. split; [reflexivity |].
  unfold slice, take_idx. rewrite length_firstn, length_skipn, length_map.
  rewrite (Permutation_length (argsort_Permutation _)), length_seq, length_map.
  lia.
Qed.

End NullSpace.

(** ** The shifted matrices of [null_space] *)

Lemma nth_zip_with {A B C} (f : A -> B -> C) (da : A) (db : B) (dc : C)
    (l : list A) (k : list B) (i : nat) :
  (i < length l)%nat -> (i < length k)%nat ->
  nth i (zip_with f l k) dc = f (nth i l da) (nth i k db).
Proof.
  revert k i. induction l as [| a l IH]; intros [| b k] [| i]; simpl;
    intros Hl Hk; try lia; [reflexivity |].
  apply IH; lia.
Qed.

Lemma nth_map_in {A B} (f : A -> B) (da : A) (db : B) (l : list A) (i : nat) :
  (i < length l)%nat -> nth i (map f l) db = f (nth i l da).
Proof.
  revert i. induction l as [| a l IH]; intros [| i]; simpl; intros H; try lia;
    [reflexivity |].
  apply IH. lia.
Qed.

Lemma square_row (n : nat) (A : matrix) (i : nat) :
  square n A -> (i < n)%nat -> length (nth i (rows A) []) = n.
Proof.
  intros [Hlen Hrows] Hi. rewrite Forall_forall in Hrows.
  apply Hrows. apply list_elem_of_In, nth_In. lia.
Qed.

Lemma identity_row (n i : nat) :
  (i < n)%nat ->
  nth i (rows (identity n)) []
    = map (fun j => if Nat.eqb i j then 1%Q else 0%Q) (seq 0 n).
Proof.
  intros Hi. simpl.
  rewrite (nth_map_in _ 0%nat) by (rewrite length_seq; exact Hi).
  rewrite seq_nth by exact Hi. reflexivity.
Qed.

Lemma square_identity (n : nat) : square n (identity n).
Proof.
  split; simpl.
  - rewrite length_map, length_seq. reflexivity.
  - apply Forall_forall. intros r Hr. apply list_elem_of_In, in_map_iff in Hr.
    destruct Hr as (i & <- & _). rewrite length_map, length_seq. reflexivity.
Qed.

Lemma square_madd (n : nat) (A B : matrix) :
  square n A -> square n B -> square n (madd A B).
Proof.
  intros HA HB. pose proof HA as [HlA _]. pose proof HB as [HlB _].
  split; simpl.
  - rewrite length_zip_with. lia.
  - apply Forall_forall. intros r Hr. apply list_elem_of_In in Hr.
    apply (In_nth _ _ []) in Hr. destruct Hr as (i & Hi & <-).
    rewrite length_zip_with in Hi.
    rewrite (nth_zip_with _ [] []) by lia.
    rewrite length_zip_with, (square_row n A i HA), (square_row n B i HB); lia.
Qed.

(** Entries of a sum of square matrices, and of the identity. *)
Lemma entry_madd (n : nat) (A B : matrix) (i j : nat) :
  square n A -> square n B -> (i < n)%nat -> (j < n)%nat ->
  entry (madd A B) i j = (entry A i j + entry B i j)%Q.
Proof.
  intros HA HB Hi Hj. pose proof HA as [HlA _]. pose proof HB as [HlB _].
  unfold entry. simpl.
  rewrite (nth_zip_with _ [] []) by lia.
  apply nth_zip_with; [rewrite (square_row n A i HA) | rewrite (square_row n B i HB)];
    lia.
Qed.

Lemma entry_identity (n i j : nat) :
  (i < n)%nat -> (j < n)%nat ->
  entry (identity n) i j = if Nat.eqb i j then 1%Q else 0%Q.
Proof.
  intros Hi Hj. unfold entry. rewrite identity_row by exact Hi.
  rewrite (nth_map_in _ 0%nat) by (rewrite length_seq; exact Hj).
  rewrite seq_nth by exact Hj. reflexivity.
Qed.

Lemma Qlt_bool_proper (a b c : Q) :
  (a == b)%Q -> Qlt_bool a c = Qlt_bool b c.
Proof.
  intros H. unfold Qlt_bool. f_equal.
  destruct (Qle_bool c a) eqn:Ea, (Qle_bool c b) eqn:Eb; try reflexivity.
  - apply Qle_bool_iff in Ea. rewrite H in Ea. apply Qle_bool_iff in Ea. congruence.
  - apply Qle_bool_iff in Eb. rewrite <- H in Eb. apply Qle_bool_iff in Eb. congruence.
Qed.

Lemma forallb_seq_ext (f g : nat -> bool) (n : nat) :
  (forall i, (i < n)%nat -> f i = g i) ->
  forallb f (seq 0 n) = forallb g (seq 0 n).
Proof.
  intros H. apply eq_true_iff_eq. rewrite !forallb_forall.
  split; intros Hall i Hi; pose proof Hi as Hi'; apply in_seq in Hi';
    [rewrite <- H by lia | rewrite H by lia]; apply Hall, Hi.
Qed.

(** X13: adding the identity does not change the outcome of the symmetry
    test: the matrix [I + M] that [null_space] hands to
    [eigen_decomposition] passes [_is_symmetric] exactly when the square
    matrix [M] does, at every tolerance. *)
Theorem shifted_matrix_symmetry (M_ : matrix) (tol : Q) :
  square (shape0 M_) M_ ->
  _is_symmetric (madd (identity (shape0 M_)) M_) tol = _is_symmetric M_ tol.
Proof.
  intros Hsq. set (n := shape0 M_) in *.
  pose proof (square_identity n) as HI.
  pose proof (square_madd n _ _ HI Hsq) as [Hn _].
  unfold _is_symmetric, shape0. rewrite Hn. fold (shape0 M_). fold n.
  apply forallb_seq_ext. intros i Hi.
  apply forallb_seq_ext. intros j Hj.
  apply Qlt_bool_proper, Qabs_wd.
  rewrite !(entry_madd n) by assumption.
  rewrite !entry_identity by assumption.
  rewrite (Nat.eqb_sym j i). ring.
Qed.

(** ** More on the Geometry store *)

Section StoreExtras.
Import Geometry.
Context {C : Collaborators}.

(** What [compute_laplacian_matrix] does with an affinity matrix present
    and [return_lapsym] false. *)
Lemma compute_laplacian_matrix_run (copy : bool) (kwargs : gmap string pyvalue)
    (st : store) (f : loc) (Fv : array) :
  affinity_matrix (self st) = Some f -> heap st !! f = Some Fv ->
  let L := ext_compute_laplacian_matrix Fv (laplacian_method (self st))
             (<["full_output" := PyBool false]>
                (merged_kwds (laplacian_kwds (self st)) kwargs)) in
  let l := length (heap st) in
  let self' := with_laplacian_matrix (Some l) (self st) in
  compute_laplacian_matrix copy false kwargs st =
    if copy then (inr (S l), mkStore ((heap st ++ [L]) ++ [L]) self')
    else (inr l, mkStore (heap st ++ [L]) self').
Proof.
  intros HF Hf L l self'. unfold compute_laplacian_matrix, bind, getattr.
  rewrite HF. simpl. rewrite HF. unfold deref at 1. rewrite Hf. simpl.
  destruct copy; [| reflexivity].
  unfold copy_of, bind, deref. simpl. rewrite lookup_alloc. simpl.
  unfold alloc. simpl. rewrite length_app. simpl.
  replace (length (heap st) + 1)%nat with (S (length (heap st))) by lia.
  reflexivity.
Qed.

(** X16: a setter given a matrix that is not square raises its
    not-square error and leaves the store exactly as it was: the matrix
    held before, if any, is still held. *)
Theorem setters_reject_non_square (A A' : array) (st : store) :
  check_array A = inr A' ->
  fst (shape A') <> snd (shape A') ->
  set_adjacency_matrix A st
    = (inl (ValueError (NotSquare "adjacency matrix is not square")), st) /\
  set_affinity_matrix A st
    = (inl (ValueError (NotSquare "affinity matrix is not square")), st) /\
  set_laplacian_matrix A st
    = (inl (ValueError (NotSquare "Laplacian matrix is not square")), st).
Proof.
  intros Hcheck Hshape.
  unfold set_adjacency_matrix, set_affinity_matrix, set_laplacian_matrix,
    bind, checked.
  rewrite Hcheck.
  destruct (Nat.eqb_spec (fst (shape A')) (snd (shape A'))) as [Heq | Hne];
    [contradiction |].
  simpl. repeat split.
Qed.


(** X18: an adjacency matrix that was set is what
    [compute_affinity_matrix] works from: after [set_adjacency_matrix]
    the affinity matrix computed is the collaborator's result on the
    matrix that was set, whether data is held or not, and the adjacency
    matrix is not computed anew. *)
Theorem compute_affinity_matrix_uses_set_adjacency (A A' : array)
    (kwargs : gmap string pyvalue) (st : store) :
  check_array A = inr A' ->
  fst (shape A') = snd (shape A') ->
  let st1 := snd (set_adjacency_matrix A st) in
  exists (r : loc) (st2 : store),
    compute_affinity_matrix false kwargs st1 = (inr r, st2) /\
    heap st2 !! r =
      Some (ext_compute_affinity_matrix A' (affinity_method (self st))
              (merged_kwds (affinity_kwds (self st)) kwargs)) /\
    affinity_matrix (self st2) = Some r /\
    adjacency_matrix (self st2) = adjacency_matrix (self st1).
Proof.
  intros Hcheck Hshape st1.
  assert (Hst1 : st1 = mkStore (heap st ++ [A'])
                         (with_adjacency_matrix (Some (length (heap st))) (self st))).
  { subst st1. unfold set_adjacency_matrix, bind, checked. rewrite Hcheck.
    rewrite Hshape, Nat.eqb_refl. reflexivity. }
  rewrite Hst1.
  eexists _, _. split.
  - apply (compute_affinity_matrix_run false kwargs _ (length (heap st)) A');
      [reflexivity | apply lookup_alloc].
  - simpl. split; [apply lookup_alloc |]. split; reflexivity.
Qed.


(** X20: the keywords the adjacency collaborator receives are the stored
    ones updated by those of the call: a key of the call has the call's
    value, any other key has its stored value, and a key in neither is
    absent. *)
Theorem compute_adjacency_matrix_keyword_precedence (copy : bool)
    (kwargs : gmap string pyvalue) (st : store) (x : loc) (Xv : array) :
  X (self st) = Some x -> heap st !! x = Some Xv ->
  exists (kw : gmap string pyvalue) (a : loc),
    adjacency_matrix (self (snd (compute_adjacency_matrix copy kwargs st)))
      = Some a /\
    heap (snd (compute_adjacency_matrix copy kwargs st)) !! a
      = Some (ext_compute_adjacency_matrix Xv (adjacency_method (self st)) kw) /\
    forall key : string,
      kw !! key = match kwargs !! key with
                  | Some v => Some v
                  | None => match adjacency_kwds (self st) with
                            | Some stored => stored !! key
                            | None => None
                            end
                  end.
Proof.
  intros HX Hx.
  exists (merged_kwds (adjacency_kwds (self st)) kwargs), (length (heap st)).
  rewrite (compute_adjacency_matrix_run copy kwargs st x Xv HX Hx).
  split; [destruct copy; reflexivity |]. split.
  - destruct copy; simpl; [apply lookup_alloc_old |]; apply lookup_alloc.
  - intros key. unfold merged_kwds. rewrite lookup_union.
    destruct (kwargs !! key) as [v |], (adjacency_kwds (self st)) as [stored |];
      simpl; try rewrite lookup_empty;
      try (destruct (stored !! key)); reflexivity.
Qed.

End StoreExtras.

Section LaplacianExtras.
Import Geometry.
Context {C : Collaborators}.

(** What [compute_laplacian_matrix] does with an affinity matrix present
    and [return_lapsym] true. *)
Lemma compute_laplacian_matrix_run_full (copy : bool)
    (kwargs : gmap string pyvalue) (st : store) (f : loc) (Fv L Lsym W : array) :
  affinity_matrix (self st) = Some f -> heap st !! f = Some Fv ->
  ext_compute_laplacian_matrix_full Fv (laplacian_method (self st))
    (<["full_output" := PyBool true]>
       (merged_kwds (laplacian_kwds (self st)) kwargs)) = (L, Lsym, W) ->
  let l := length (heap st) in
  let self' :=
    with_laplacian_weights (Some (S (S l)))
      (with_laplacian_symmetric (Some (S l))
         (with_laplacian_matrix (Some l) (self st))) in
  compute_laplacian_matrix copy true kwargs st =
    if copy
    then (inr (S (S (S l))),
          mkStore ((((heap st ++ [L]) ++ [Lsym]) ++ [W]) ++ [L]) self')
    else (inr l, mkStore (((heap st ++ [L]) ++ [Lsym]) ++ [W]) self').
Proof.
  intros HF Hf Hfull l self'. subst self' l.
  unfold compute_laplacian_matrix, bind, getattr.
  rewrite HF. simpl. rewrite HF. unfold deref at 1. rewrite Hf. simpl.
  rewrite Hfull. unfold alloc, setattr. simpl.
  rewrite !length_app. simpl.
  replace (length (heap st) + 1)%nat with (S (length (heap st))) by lia.
  replace (S (length (heap st)) + 1)%nat with (S (S (length (heap st))))
    by lia.
  destruct copy; [| reflexivity].
  unfold copy_of, bind, deref. simpl.
  assert (Hl : ((((heap st ++ [L]) ++ [Lsym]) ++ [W]) !! length (heap st)
                = Some L)).
  { apply lookup_alloc_old, lookup_alloc_old, lookup_alloc. }
  unfold loc. rewrite Hl. unfold alloc. simpl. rewrite !length_app. simpl.
  replace (length (heap st) + 1 + 1 + 1)%nat
    with (S (S (S (length (heap st))))) by lia.
  reflexivity.
Qed.

(** X21: with an affinity matrix held, [compute_laplacian_matrix] works
    from it alone: it needs no data and no adjacency matrix and leaves
    those attributes as they are.  Whatever [copy] and [return_lapsym]
    are, the collaborator gets the stored keywords updated by those of
    the call, except that [full_output] is the [return_lapsym] of the
    call: a [full_output] passed as a keyword or stored has no effect.
    With [return_lapsym] true the three outputs of the collaborator are
    stored, with [return_lapsym] false its one output is and the
    symmetric Laplacian and the weights held before stay; in both cases
    what is returned carries the Laplacian. *)
Theorem compute_laplacian_matrix_keywords (copy return_lapsym : bool)
    (kwargs : gmap string pyvalue) (st : store) (f : loc) (Fv : array) :
  affinity_matrix (self st) = Some f -> heap st !! f = Some Fv ->
  exists (kw : gmap string pyvalue) (r l : loc) (st' : store),
    compute_laplacian_matrix copy return_lapsym kwargs st = (inr r, st') /\
    kw !! "full_output" = Some (PyBool return_lapsym) /\
    (forall key : string, key <> "full_output" ->
       kw !! key = match kwargs !! key with
                   | Some v => Some v
                   | None => match laplacian_kwds (self st) with
                             | Some stored => stored !! key
                             | None => None
                             end
                   end) /\
    laplacian_matrix (self st') = Some l /\
    (if return_lapsym
     then exists (L Lsym W : array) (ls lw : loc),
            ext_compute_laplacian_matrix_full Fv (laplacian_method (self st)) kw
              = (L, Lsym, W) /\
            heap st' !! l = Some L /\ heap st' !! r = Some L /\
            laplacian_symmetric (self st') = Some ls /\
            heap st' !! ls = Some Lsym /\
            laplacian_weights (self st') = Some lw /\
            heap st' !! lw = Some W
     else let L := ext_compute_laplacian_matrix Fv (laplacian_method (self st))
                     kw in
          heap st' !! l = Some L /\ heap st' !! r = Some L /\
          laplacian_symmetric (self st') = laplacian_symmetric (self st) /\
          laplacian_weights (self st') = laplacian_weights (self st)) /\
    X (self st') = X (self st) /\
    adjacency_matrix (self st') = adjacency_matrix (self st) /\
    affinity_matrix (self st') = affinity_matrix (self st).
Proof.
  intros HF Hf.
  set (kw := <["full_output" := PyBool return_lapsym]>
               (merged_kwds (laplacian_kwds (self st)) kwargs)).
  assert (Hfull : kw !! "full_output" = Some (PyBool return_lapsym))
    by apply lookup_insert_eq.
  assert (Hkeys : forall key : string, key <> "full_output" ->
            kw !! key = match kwargs !! key with
                        | Some v => Some v
                        | None => match laplacian_kwds (self st) with
                                  | Some stored => stored !! key
                                  | None => None
                                  end
                        end).
  { intros key Hkey. subst kw. rewrite lookup_insert_ne by congruence.
    unfold merged_kwds. rewrite lookup_union.
    destruct (kwargs !! key) as [v |], (laplacian_kwds (self st)) as [stored |];
      simpl; try rewrite lookup_empty;
      try (destruct (stored !! key)); reflexivity. }
  exists kw. destruct return_lapsym.
  - destruct (ext_compute_laplacian_matrix_full Fv (laplacian_method (self st)) kw)
      as [[L Lsym] W] eqn:E.
    pose proof (compute_laplacian_matrix_run_full copy kwargs st f Fv L Lsym W
                  HF Hf E) as Hrun.
    cbv zeta in Hrun.
    assert (Hl : (((heap st ++ [L]) ++ [Lsym]) ++ [W]) !! length (heap st) = Some L)
      by apply lookup_alloc_old, lookup_alloc_old, lookup_alloc.
    assert (Hls : (((heap st ++ [L]) ++ [Lsym]) ++ [W]) !! S (length (heap st))
                  = Some Lsym).
    { apply lookup_alloc_old.
      replace (S (length (heap st))) with (length (heap st ++ [L]))
        by (rewrite length_app; simpl; lia).
      apply lookup_alloc. }
    assert (Hlw : (((heap st ++ [L]) ++ [Lsym]) ++ [W]) !! S (S (length (heap st)))
                  = Some W).
    { replace (S (S (length (heap st))))
        with (length ((heap st ++ [L]) ++ [Lsym]))
        by (rewrite !length_app; simpl; lia).
      apply lookup_alloc. }
    destruct copy; eexists _, (length (heap st)), _;
      (split; [exact Hrun |]); (split; [exact Hfull |]);
      (split; [exact Hkeys |]); (split; [reflexivity |]);
      (split; [| repeat split]);
      exists L, Lsym, W, (S (length (heap st))), (S (S (length (heap st))));
      simpl.
    + split; [reflexivity |].
      split; [apply lookup_alloc_old, Hl |].
      split.
      { replace (S (S (S (length (heap st)))))
          with (length (((heap st ++ [L]) ++ [Lsym]) ++ [W]))
          by (rewrite !length_app; simpl; lia).
        apply lookup_alloc. }
      split; [reflexivity |]. split; [apply lookup_alloc_old, Hls |].
      split; [reflexivity | apply lookup_alloc_old, Hlw].
    + split; [reflexivity |]. split; [exact Hl |]. split; [exact Hl |].
      split; [reflexivity |]. split; [exact Hls |].
      split; [reflexivity | exact Hlw].
  - pose proof (compute_laplacian_matrix_run copy kwargs st f Fv HF Hf) as Hrun.
    cbv zeta in Hrun. fold kw in Hrun.
    destruct copy; eexists _, (length (heap st)), _;
      (split; [exact Hrun |]); (split; [exact Hfull |]);
      (split; [exact Hkeys |]); (split; [reflexivity |]);
      (split; [| repeat split]); cbv zeta; simpl.
    + split; [apply lookup_alloc_old, lookup_alloc |].
      split; [| split; reflexivity].
      replace (S (length (heap st)))
        with (length (heap st ++ [ext_compute_laplacian_matrix Fv
                                    (laplacian_method (self st)) kw]))
        by (rewrite length_app; simpl; lia).
      apply lookup_alloc.
    + split; [apply lookup_alloc |]. split; [apply lookup_alloc |].
      split; reflexivity.
Qed.

(** X22: on an instance that holds data and neither adjacency nor
    affinity matrix, [compute_laplacian_matrix] derives both in order: the
    adjacency matrix from the data, the affinity matrix from that, the
    Laplacian from that, and it stores all three.  The keywords of the
    call go to the Laplacian collaborator only; the two upstream
    computations run on their stored keywords. *)
Theorem compute_laplacian_matrix_derives_upstream
    (kwargs : gmap string pyvalue) (st : store) (x : loc) (Xv : array) :
  X (self st) = Some x -> heap st !! x = Some Xv ->
  adjacency_matrix (self st) = None -> affinity_matrix (self st) = None ->
  let A := ext_compute_adjacency_matrix Xv (adjacency_method (self st))
             (merged_kwds (adjacency_kwds (self st)) ∅) in
  let F := ext_compute_affinity_matrix A (affinity_method (self st))
             (merged_kwds (affinity_kwds (self st)) ∅) in
  let L := ext_compute_laplacian_matrix F (laplacian_method (self st))
             (<["full_output" := PyBool false]>
                (merged_kwds (laplacian_kwds (self st)) kwargs)) in
  exists (r a f : loc) (st' : store),
    compute_laplacian_matrix false false kwargs st = (inr r, st') /\
    adjacency_matrix (self st') = Some a /\ heap st' !! a = Some A /\
    affinity_matrix (self st') = Some f /\ heap st' !! f = Some F /\
    laplacian_matrix (self st') = Some r /\ heap st' !! r = Some L.
Proof.
  intros HX Hx HA HF A F L.
  exists (length ((heap st ++ [A]) ++ [F])), (length (heap st)),
         (length (heap st ++ [A])),
         (mkStore (((heap st ++ [A]) ++ [F]) ++ [L])
            (with_laplacian_matrix (Some (length ((heap st ++ [A]) ++ [F])))
               (with_affinity_matrix (Some (length (heap st ++ [A])))
                  (with_adjacency_matrix (Some (length (heap st))) (self st))))).
  split.
  - unfold compute_laplacian_matrix. unfold bind at 1. unfold getattr at 1.
    rewrite HF. unfold bind at 1. unfold bind at 1.
    unfold compute_affinity_matrix. unfold bind at 1. unfold getattr at 1.
    rewrite HA. unfold bind at 1. unfold bind at 1.
    rewrite (compute_adjacency_matrix_run false ∅ st x Xv HX Hx).
    cbv zeta. fold A. unfold ret at 1.
    unfold bind, getattr, deref, alloc, setattr, ret. simpl.
    rewrite lookup_alloc. simpl. fold F.
    rewrite lookup_alloc. simpl. fold L. reflexivity.
  - simpl. split; [reflexivity |].
    split; [apply lookup_alloc_old, lookup_alloc_old, lookup_alloc |].
    split; [reflexivity |].
    split; [apply lookup_alloc_old, lookup_alloc |].
    split; [reflexivity | apply lookup_alloc].
Qed.

(** X23: on an instance that holds neither data nor adjacency nor
    affinity matrix, [compute_affinity_matrix] and
    [compute_laplacian_matrix] raise the missing-data error of
    [compute_adjacency_matrix], and the store is as it was. *)
Theorem derivation_without_source_fails (copy return_lapsym : bool)
    (kwargs : gmap string pyvalue) (st : store) :
  X (self st) = None -> adjacency_matrix (self st) = None ->
  affinity_matrix (self st) = None ->
  compute_affinity_matrix copy kwargs st = (inl (ValueError NoDataMatrix), st) /\
  compute_laplacian_matrix copy return_lapsym kwargs st
    = (inl (ValueError NoDataMatrix), st).
Proof.
  intros HX HA HF. split.
  - apply compute_affinity_matrix_no_source; assumption.
  - unfold compute_laplacian_matrix, bind, getattr. rewrite HF.
    rewrite (compute_affinity_matrix_no_source false ∅ st HA HX). reflexivity.
Qed.

End LaplacianExtras.

Section StaleData.
Import Geometry.
Context {C : Collaborators}.


(** X25: an array that [check_array] rejects is rejected by the four
    setters with the error of [check_array], before any test of the
    shape, and the instance is left as it was. *)
Theorem setters_reject_invalid_arrays (A : array) (msg : string) (st : store) :
  check_array A = inl msg ->
  set_data_matrix A st = (inl (ValueError (InvalidArray msg)), st) /\
  set_adjacency_matrix A st = (inl (ValueError (InvalidArray msg)), st) /\
  set_affinity_matrix A st = (inl (ValueError (InvalidArray msg)), st) /\
  set_laplacian_matrix A st = (inl (ValueError (InvalidArray msg)), st).
Proof.
  intros Hcheck.
  unfold set_data_matrix, set_adjacency_matrix, set_affinity_matrix,
    set_laplacian_matrix, bind, checked.
  rewrite Hcheck. repeat split.
Qed.

End StaleData.

(** ** [eigen_decomposition], by solver *)

Section BySolver.
Import EigenDecomp.
Context {N : Numerics}.

Lemma bind_ext_on {S A B} (m : M S A) (k1 k2 : A -> M S B) (s : S) :
  (forall a s', m s = (inr a, s') -> k1 a s' = k2 a s') ->
  bind m k1 s = bind m k2 s.
Proof.
  intros H. unfold bind. destruct (m s) as [[e | a] s']; [reflexivity |].
  apply H. reflexivity.
Qed.

Lemma auto_test_in_nat (n k : nat) :
  ((Z.of_nat n >? 200)%Z && (Z.of_nat k <? 10)%Z)
  = ((200 <? n)%nat && (k <? 10)%nat).
Proof.
  f_equal.
  - rewrite Z.gtb_ltb.
    destruct (Z.ltb_spec 200 (Z.of_nat n)), (Nat.ltb_spec 200 n); try reflexivity; lia.
  - destruct (Z.ltb_spec (Z.of_nat k) 10), (Nat.ltb_spec k 10); try reflexivity; lia.
Qed.

(** X26: with 'auto', [eigen_decomposition] is [eigen_decomposition] with
    the solver its sizes select: for more than 200 rows and fewer than 10
    pairs asked of the solver (one more than [n_components] under
    [drop_first]), 'amg' when pyamg is loaded and 'arpack' when it is
    not; 'dense' otherwise.  No warning comes with the choice. *)
Theorem eigen_decomposition_auto (G : matrix) (n_components : nat)
    random_state eigen_tol (drop_first largest : bool) (w : world) :
  let k := if drop_first then (n_components + 1)%nat else n_components in
  eigen_decomposition G n_components "auto" random_state eigen_tol
    drop_first largest w
  = eigen_decomposition G n_components
      (if (200 <? shape0 G)%nat && (k <? 10)%nat
       then if PYAMG_LOADED then "amg" else "arpack"
       else "dense")
      random_state eigen_tol drop_first largest w.
Proof.
  intros k. unfold eigen_decomposition. cbv zeta. fold k.
  unfold bind at 1. unfold bind at 2.
  assert (Hsame :
    check_eigen_solver "auto" (Some (Z.of_nat (shape0 G))) (Some (Z.of_nat k)) w
    = check_eigen_solver
        (if (200 <? shape0 G)%nat && (k <? 10)%nat
         then if PYAMG_LOADED then "amg" else "arpack"
         else "dense")
        (Some (Z.of_nat (shape0 G))) (Some (Z.of_nat k)) w).
  { unfold check_eigen_solver at 1. simpl. rewrite auto_test_in_nat.
    destruct ((200 <? shape0 G)%nat && (k <? 10)%nat).
    - destruct PYAMG_LOADED eqn:Hloaded.
      + unfold check_eigen_solver. simpl. rewrite Hloaded. reflexivity.
      + reflexivity.
    - reflexivity. }
  rewrite Hsame. reflexivity.
Qed.

(** X27: what [eigen_decomposition] does not look at.  With 'dense' the
    outcome depends neither on [random_state], nor on the global
    generator, nor on [eigen_tol], and the world is left as it was: no
    draw, no warning.  With 'amg' and 'lobpcg' the outcome does not
    depend on [eigen_tol], which only the 'arpack' branch passes on. *)
Theorem eigen_decomposition_unused_arguments (G : matrix) (n_components : nat)
    (drop_first largest : bool) :
  (forall random_state random_state' eigen_tol eigen_tol' (w w' : world),
     fst (eigen_decomposition G n_components "dense" random_state eigen_tol
            drop_first largest w)
     = fst (eigen_decomposition G n_components "dense" random_state' eigen_tol'
              drop_first largest w') /\
     snd (eigen_decomposition G n_components "dense" random_state eigen_tol
            drop_first largest w) = w) /\
  (forall eigen_solver random_state eigen_tol eigen_tol' (w : world),
     eigen_solver = "amg" \/ eigen_solver = "lobpcg" ->
     eigen_decomposition G n_components eigen_solver random_state eigen_tol
       drop_first largest w
     = eigen_decomposition G n_components eigen_solver random_state eigen_tol'
         drop_first largest w).
Proof.
  split.
  - intros rs rs' tol tol' w w'.
    unfold eigen_decomposition, check_eigen_solver. cbv zeta. simpl.
    rewrite !bind_ret_l. simpl. unfold bind, call, ret.
    destruct (_is_symmetric G default_tol).
    + destruct (eigh _ None) as [e | [vals vecs]]; [split; reflexivity |].
      destruct largest; split; reflexivity.
    + destruct (eig _) as [e | [vals vecs]]; [split; reflexivity |].
      destruct largest; split; reflexivity.
  - intros s rs tol tol' w Hs.
    unfold eigen_decomposition. cbv zeta.
    apply bind_ext_on. intros r w0 Hcheck.
    assert (Hr : r = "amg" \/ r = "lobpcg" \/ r = "dense").
    { unfold check_eigen_solver in Hcheck.
      destruct Hs as [-> | ->]; simpl in Hcheck.
      - destruct PYAMG_LOADED; simpl in Hcheck; [| discriminate Hcheck].
        injection Hcheck as <- _. tauto.
      - destruct (_ <? _)%Z; injection Hcheck as <- _; tauto. }
    destruct Hr as [-> | [-> | ->]]; reflexivity.
Qed.


(** X29: with 'arpack', [eigen_decomposition] draws a start vector
    whether or not it is used, asks [eigsh] (symmetric matrix: 'LM' or
    'SM') or [eigs] (otherwise: 'LR' or 'SR', no start vector) for [k]
    pairs, [k] being one more than [n_components] under [drop_first], and
    returns them as they come: none is dropped, none is reordered, no
    warning is issued. *)
Theorem eigen_decomposition_arpack (G : matrix) (n_components : nat)
    random_state eigen_tol (drop_first largest : bool) (w : world) :
  let k := if drop_first then (n_components + 1)%nat else n_components in
  exists (v0 : vector) (w1 : world),
    draw (check_random_state random_state)
         (fun rs => uniform rs (-1) 1 (shape0 G)) w = (inr v0, w1) /\
    warnings_issued w1 = warnings_issued w /\
    eigen_decomposition G n_components "arpack" random_state eigen_tol
      drop_first largest w
    = call (if _is_symmetric G default_tol
            then eigsh G k (if largest then "LM" else "SM") None eigen_tol
                   None v0
            else eigs G k (if largest then "LR" else "SR") eigen_tol) w1.
Proof.
  intros k.
  destruct (draw_returns (check_random_state random_state)
              (fun rs => uniform rs (-1) 1 (shape0 G)) w) as (v0 & w1 & Hd & Hw).
  exists v0, w1. split; [exact Hd |]. split; [exact Hw |].
  unfold eigen_decomposition, check_eigen_solver. cbv zeta. fold k. simpl.
  rewrite bind_ret_l. simpl. rewrite (bind_inr _ _ _ _ _ Hd).
  unfold bind, call, ret.
  destruct (_is_symmetric G default_tol).
  - destruct (eigsh _ _ _ _ _ _ _) as [e | [vals vecs]]; reflexivity.
  - destruct (eigs _ _ _ _) as [e | [vals vecs]]; reflexivity.
Qed.

Lemma shape0_shifted (M_ : matrix) :
  shape0 (madd (identity (shape0 M_)) M_) = shape0 M_.
Proof.
  unfold shape0, madd, identity. simpl.
  rewrite length_zip_with, length_map, length_seq. lia.
Qed.

(** X30: on a matrix with at least [5 (k + k_skip) + 1] and at most
    [5 (k + k_skip) + 50] rows, [null_space] accepts 'lobpcg', but the
    solve it then asks for, of [min(k + k_skip + 10, N)] pairs, is too
    large for 'lobpcg' on [N] rows: it is made by the 'dense' branch of
    [eigen_decomposition] on [I + M], after the small-matrix warning. *)
Theorem null_space_lobpcg_solves_dense (M_ : matrix) (k k_skip : nat)
    tol max_iter random_state (w : world) :
  (5 * (k + k_skip) + 1 <= shape0 M_ <= 5 * (k + k_skip) + 50)%nat ->
  let M1 := madd (identity (shape0 M_)) M_ in
  let first := eigen_decomposition M1 (Nat.min (k + k_skip + 10) (shape0 M_))
                 "dense" None 0%Q false false (warned warning_lobpcg_small w) in
  (forall p w1, first = (inr p, w1) ->
     null_space M_ k k_skip "lobpcg" tol max_iter random_state w
       = (inr (shifted_back 1 k k_skip p), w1)) /\
  (forall e w1, first = (inl e, w1) ->
     (forall msg, e <> FromLibrary (LinAlgError msg)) ->
     null_space M_ k k_skip "lobpcg" tol max_iter random_state w
       = (inl e, w1)).
Proof.
  intros Hrows M1 first.
  assert (Hkept : check_eigen_solver "lobpcg" (Some (Z.of_nat (shape0 M_)))
                    (Some (Z.of_nat (k + k_skip))) w = (inr "lobpcg", w))
    by (apply check_eigen_solver_lobpcg_kept; lia).
  assert (Hinner :
    eigen_decomposition M1 (Nat.min (k + k_skip + 10) (shape0 M1)) "lobpcg"
      None 0%Q false false w = first).
  { subst first. unfold M1 at 2. rewrite shape0_shifted.
    unfold eigen_decomposition. cbv zeta. unfold check_eigen_solver. simpl.
    unfold M1 at 1 4. rewrite !shape0_shifted.
    destruct (Z.ltb_spec (Z.of_nat (shape0 M_))
                (5 * Z.of_nat (Nat.min (k + k_skip + 10) (shape0 M_)) + 1))
      as [Hlt | Hge]; [reflexivity | lia]. }
  split.
  - intros [vals vecs] w1 Hfirst. unfold null_space.
    rewrite (bind_inr _ _ _ _ _ Hkept). simpl. unfold try_except, bind.
    fold M1. rewrite Hinner, Hfirst. reflexivity.
  - intros e w1 Hfirst Hnot. unfold null_space.
    rewrite (bind_inr _ _ _ _ _ Hkept). simpl. unfold try_except, bind.
    fold M1. rewrite Hinner, Hfirst.
    destruct e as [? | [msg | ? | ? ?] | | ? | ?];
      [reflexivity | exfalso; exact (Hnot msg eq_refl) | reflexivity ..].
Qed.

End BySolver.

(** ** The further properties on the sample libraries and stores *)

Lemma amg_without_pyamg_fails_at_once_witness :
  let N := Sample.diag_numerics false 0 in
  let w := Sample.world0 (N := N) 0%nat in
  PYAMG_LOADED (Numerics := N) = false /\
  EigenDecomp.check_eigen_solver (N := N) "amg" None None w
    = (inl (ValueError AmgNotAvailable), w) /\
  EigenDecomp.eigen_decomposition (N := N) Sample.diag_1_2_3 1 "amg" None 0
    false false w = (inl (ValueError AmgNotAvailable), w) /\
  EigenDecomp.null_space (N := N) Sample.diag_0_1 1 1 "amg" (1 # 1000000) 100
    None w = (inl (ValueError AmgNotAvailable), w).
Proof.
  cbv zeta. split; [reflexivity |].
  destruct (amg_without_pyamg_fails_at_once (N := Sample.diag_numerics false 0)
              eq_refl) as (Hcheck & Hdecomp & Hnull).
  split; [apply Hcheck |]. split; [apply Hdecomp | apply Hnull].
Defined.

Lemma check_eigen_solver_without_sizes_witness :
  let N := Sample.diag_numerics false 0 in
  let w := Sample.world0 (N := N) 0%nat in
  In "lobpcg" EigenDecomp.EIGEN_SOLVERS /\
  EigenDecomp.check_eigen_solver (N := N) "lobpcg" (Some 3%Z) None w
    = (inr "lobpcg", w).
Proof.
  cbv zeta.
  assert (Hin : In "lobpcg" EigenDecomp.EIGEN_SOLVERS)
    by (unfold EigenDecomp.EIGEN_SOLVERS; simpl; tauto).
  split; [exact Hin |].
  apply (check_eigen_solver_without_sizes (N := Sample.diag_numerics false 0)
           "lobpcg" (Some 3%Z) None).
  - exact Hin.
  - intros H. discriminate H.
  - right. reflexivity.
Defined.

Lemma check_eigen_solver_idempotent_witness :
  let N := Sample.diag_numerics true 0 in
  let w := Sample.world0 (N := N) 0%nat in
  let w' := warned (N := N) EigenDecomp.warning_lobpcg_small w in
  EigenDecomp.check_eigen_solver (N := N) "lobpcg" (Some 6%Z) (Some 2%Z) w
    = (inr "dense", w') /\
  EigenDecomp.check_eigen_solver (N := N) "dense" (Some 6%Z) (Some 2%Z) w'
    = (inr "dense", w').
Proof.
  cbv zeta. split; [reflexivity |].
  apply (check_eigen_solver_idempotent (N := Sample.diag_numerics true 0)
           "lobpcg" 6%Z 2%Z
           (Sample.world0 (N := Sample.diag_numerics true 0) 0%nat)).
  reflexivity.
Defined.

Lemma eigen_decomposition_lobpcg_small_is_dense_witness :
  let N := Sample.diag_numerics true 0 in
  let w := Sample.world0 (N := N) 0%nat in
  (shape0 Sample.diag_1_2_3 < 5 * 1 + 1)%nat /\
  EigenDecomp.eigen_decomposition (N := N) Sample.diag_1_2_3 1 "lobpcg" None 0
    false true w
  = EigenDecomp.eigen_decomposition (N := N) Sample.diag_1_2_3 1 "dense" None 0
      false true (warned (N := N) EigenDecomp.warning_lobpcg_small w).
Proof.
  cbv zeta. split; [vm_compute; lia |].
  apply (eigen_decomposition_lobpcg_small_is_dense
           (N := Sample.diag_numerics true 0) Sample.diag_1_2_3 1 None 0
           false true).
  vm_compute; lia.
Defined.

Lemma block_solvers_refuse_asymmetric_witness :
  let N := Sample.diag_numerics true 0 in
  let w := Sample.world0 (N := N) 0%nat in
  let G := mkMatrix true [[0; 1]; [0; 0]]%Q in
  _is_symmetric G default_tol = false /\
  EigenDecomp.eigen_decomposition (N := N) G 1 "amg" None 0 false false w
    = (inl (ValueError LobpcgRequiresSymmetric), w).
Proof.
  cbv zeta. split; [vm_compute; reflexivity |].
  apply (proj1 (block_solvers_refuse_asymmetric
                  (N := Sample.diag_numerics true 0)
                  (mkMatrix true [[0; 1]; [0; 0]]%Q) 1 None 0 false false
                  (Sample.world0 (N := Sample.diag_numerics true 0) 0%nat)
                  ltac:(vm_compute; reflexivity))).
  reflexivity.
Defined.

Lemma eigen_decomposition_block_pairs_witness :
  let N := Sample.diag_numerics true 0 in
  let w := Sample.world0 (N := N) 0%nat in
  EigenDecomp.eigen_decomposition (N := N) Sample.diag_1_to_6 1 "lobpcg" None 0
    false false w
    = (inr ([1%Q], [[1; 0; 0; 0; 0; 0]%Q]), EigenDecomp.mkWorld [] 1%nat) /\
  exists (X_ : columns) (M_ : option (preconditioner (Numerics := N)))
         (vals : vector) (vecs : columns),
    lobpcg (Numerics := N) Sample.diag_1_to_6 X_ M_ false = inr (vals, vecs) /\
    length [1%Q] = Nat.min 1 (length vals) /\
    length [[1; 0; 0; 0; 0; 0]%Q] = Nat.min 1 (length vals) /\
    (length vals = length vecs ->
     exists rest, Permutation (combine vals vecs)
                    (combine [1%Q] [[1; 0; 0; 0; 0; 0]%Q] ++ rest)).
Proof.
  cbv zeta. split; [vm_compute; reflexivity |].
  apply (eigen_decomposition_block_pairs (N := Sample.diag_numerics true 0)
           Sample.diag_1_to_6 1 "lobpcg" None 0 false false
           (Sample.world0 (N := Sample.diag_numerics true 0) 0%nat)
           (EigenDecomp.mkWorld (N := Sample.diag_numerics true 0) [] 1%nat)).
  - right. split; [reflexivity | vm_compute; lia].
  - vm_compute; reflexivity.
Defined.

Lemma null_space_first_attempt_witness :
  let N := Sample.diag_numerics true 0 in
  let w := Sample.world0 (N := N) 0%nat in
  let M1 := madd (identity (shape0 Sample.diag_0_1)) Sample.diag_0_1 in
  EigenDecomp.check_eigen_solver (N := N) "amg" (Some 2%Z) (Some 2%Z) w
    = (inr "amg", w) /\
  forall p w1,
    EigenDecomp.eigen_decomposition (N := N) M1
      (Nat.min (1 + 1 + 10) (shape0 M1)) "amg" None 0%Q false false w
      = (inr p, w1) ->
    EigenDecomp.null_space (N := N) Sample.diag_0_1 1 1 "amg" (1 # 1000000) 100
      None w = (inr (shifted_back 1 1 1 p), w1).
Proof.
  cbv zeta. split; [reflexivity |].
  apply (proj1 (null_space_first_attempt (N := Sample.diag_numerics true 0)
                  Sample.diag_0_1 1 1 "amg" (1 # 1000000) 100 None "amg"
                  (Sample.world0 (N := Sample.diag_numerics true 0) 0%nat)
                  (Sample.world0 (N := Sample.diag_numerics true 0) 0%nat)
                  eq_refl (or_introl eq_refl))).
Defined.

Lemma null_space_retries_once_witness :
  let N := Sample.diag_numerics true 10 in
  let w := Sample.world0 (N := N) 0%nat in
  EigenDecomp.null_space (N := N) Sample.diag_0_1 1 1 "amg" (1 # 1000000) 100
    None w
  = (inl (FromLibrary (LinAlgError "matrix is not positive definite")),
     EigenDecomp.mkWorld [EigenDecomp.warning_lobpcg_retry] 2%nat).
Proof.
  cbv zeta.
  apply (null_space_retries_once (N := Sample.diag_numerics true 10)
           Sample.diag_0_1 1 1 "amg" (1 # 1000000) 100 None "amg"
           (Sample.world0 (N := Sample.diag_numerics true 10) 0%nat)
           (Sample.world0 (N := Sample.diag_numerics true 10) 0%nat)
           (EigenDecomp.mkWorld (N := Sample.diag_numerics true 10) [] 1%nat)
           (EigenDecomp.mkWorld (N := Sample.diag_numerics true 10)
              [EigenDecomp.warning_lobpcg_retry] 2%nat)
           "matrix is not positive definite").
  - reflexivity.
  - left. reflexivity.
  - vm_compute; reflexivity.
  - vm_compute; reflexivity.
Defined.

Lemma null_space_dense_count_witness :
  let N := Sample.diag_numerics true 0 in
  let w := Sample.world0 (N := N) 0%nat in
  eigh (Numerics := N) (todense Sample.diag_1_2_3) (Some (0, 1 + 1)%nat)
    = inr ([1; 2; 3]%Q, [[1; 0; 0]; [0; 1; 0]; [0; 0; 1]]%Q) /\
  exists (vectors : columns) (error : Q),
    EigenDecomp.null_space (N := N) Sample.diag_1_2_3 1 1 "dense" (1 # 1000000)
      100 None w = (inr (vectors, error), w) /\
    length vectors = (1 + 1 - 1)%nat.
Proof.
  cbv zeta. split; [vm_compute; reflexivity |].
  apply (null_space_dense_count (N := Sample.diag_numerics true 0)
           Sample.diag_1_2_3 1 1 (1 # 1000000) 100 None
           (Sample.world0 (N := Sample.diag_numerics true 0) 0%nat)
           [1; 2; 3]%Q [[1; 0; 0]; [0; 1; 0]; [0; 0; 1]]%Q).
  - vm_compute; reflexivity.
  - reflexivity.
Defined.

Lemma shifted_matrix_symmetry_witness :
  square (shape0 Sample.diag_1_2_3) Sample.diag_1_2_3 /\
  _is_symmetric (madd (identity (shape0 Sample.diag_1_2_3)) Sample.diag_1_2_3)
    default_tol
  = _is_symmetric Sample.diag_1_2_3 default_tol.
Proof.
  split; [split; [reflexivity | repeat constructor] |].
  apply (shifted_matrix_symmetry Sample.diag_1_2_3 default_tol).
  split; [reflexivity | repeat constructor].
Defined.


Lemma null_space_lobpcg_solves_dense_witness :
  let N := Sample.diag_numerics true 0 in
  let w := Sample.world0 (N := N) 0%nat in
  let M1 := madd (identity (shape0 Sample.diag_1_to_6)) Sample.diag_1_to_6 in
  (5 * (1 + 0) + 1 <= shape0 Sample.diag_1_to_6 <= 5 * (1 + 0) + 50)%nat /\
  forall p w1,
    EigenDecomp.eigen_decomposition (N := N) M1
      (Nat.min (1 + 0 + 10) (shape0 Sample.diag_1_to_6)) "dense" None 0%Q
      false false (warned (N := N) EigenDecomp.warning_lobpcg_small w)
      = (inr p, w1) ->
    EigenDecomp.null_space (N := N) Sample.diag_1_to_6 1 0 "lobpcg"
      (1 # 1000000) 100 None w = (inr (shifted_back 1 1 0 p), w1).
Proof.
  cbv zeta. split; [vm_compute; lia |].
  apply (proj1 (null_space_lobpcg_solves_dense
                  (N := Sample.diag_numerics true 0) Sample.diag_1_to_6 1 0
                  (1 # 1000000) 100 None
                  (Sample.world0 (N := Sample.diag_numerics true 0) 0%nat)
                  ltac:(vm_compute; lia))).
Defined.

Section OnTheLineAgain.
Import Geometry Sample.
#[local] Existing Instance line_collaborators.

Lemma setters_reject_non_square_witness :
  let A := [[1; 2; 3]; [4; 5; 6]]%Z in
  (check_array A = inr A /\ fst (shape A) <> snd (shape A)) /\
  set_adjacency_matrix A new_store
    = (inl (ValueError (NotSquare "adjacency matrix is not square")), new_store) /\
  set_affinity_matrix A new_store
    = (inl (ValueError (NotSquare "affinity matrix is not square")), new_store) /\
  set_laplacian_matrix A new_store
    = (inl (ValueError (NotSquare "Laplacian matrix is not square")), new_store).
Proof.
  cbv zeta. split.
  - split; [reflexivity | simpl; lia].
  - apply (setters_reject_non_square (C := line_collaborators)
             [[1; 2; 3]; [4; 5; 6]]%Z [[1; 2; 3]; [4; 5; 6]]%Z new_store).
    + reflexivity.
    + simpl; lia.
Defined.


Lemma compute_affinity_matrix_uses_set_adjacency_witness :
  let A := [[0; 1]; [1; 0]]%Z in
  (check_array A = inr A /\ fst (shape A) = snd (shape A)) /\
  exists (r : loc) (st2 : store),
    compute_affinity_matrix false ∅ store_with_adjacency = (inr r, st2) /\
    heap st2 !! r =
      Some (ext_compute_affinity_matrix A (affinity_method (self new_store))
              (merged_kwds (affinity_kwds (self new_store)) ∅)) /\
    affinity_matrix (self st2) = Some r /\
    adjacency_matrix (self st2) = adjacency_matrix (self store_with_adjacency).
Proof.
  cbv zeta. split.
  - split; reflexivity.
  - apply (compute_affinity_matrix_uses_set_adjacency (C := line_collaborators)
             [[0; 1]; [1; 0]]%Z [[0; 1]; [1; 0]]%Z ∅ new_store);
      reflexivity.
Defined.


Lemma compute_adjacency_matrix_keyword_precedence_witness :
  let kwargs : gmap string pyvalue := {["radius" := PyInt 2]} in
  (X (self store_with_data) = Some 0%nat /\
   heap store_with_data !! 0%nat = Some three_points) /\
  exists (kw : gmap string pyvalue) (a : loc),
    adjacency_matrix
      (self (snd (compute_adjacency_matrix false kwargs store_with_data)))
      = Some a /\
    heap (snd (compute_adjacency_matrix false kwargs store_with_data)) !! a
      = Some (ext_compute_adjacency_matrix three_points
                (adjacency_method (self store_with_data)) kw) /\
    forall key : string,
      kw !! key = match kwargs !! key with
                  | Some v => Some v
                  | None => match adjacency_kwds (self store_with_data) with
                            | Some stored => stored !! key
                            | None => None
                            end
                  end.
Proof.
  cbv zeta. split.
  - split; reflexivity.
  - apply (compute_adjacency_matrix_keyword_precedence (C := line_collaborators)
             false {["radius" := PyInt 2]} store_with_data 0%nat three_points);
      reflexivity.
Defined.

(** The new instance with an affinity matrix set and nothing else. *)
Lemma compute_laplacian_matrix_keywords_witness :
  let Fv := [[1; 1]; [1; 1]]%Z in
  let st := snd (set_affinity_matrix (C := line_collaborators) Fv new_store) in
  let kwargs : gmap string pyvalue := {["full_output" := PyBool false]} in
  (affinity_matrix (self st) = Some 0%nat /\ heap st !! 0%nat = Some Fv) /\
  exists (kw : gmap string pyvalue) (r l : loc) (st' : store),
    compute_laplacian_matrix true true kwargs st = (inr r, st') /\
    kw !! "full_output" = Some (PyBool true) /\
    (forall key : string, key <> "full_output" ->
       kw !! key = match kwargs !! key with
                   | Some v => Some v
                   | None => match laplacian_kwds (self st) with
                             | Some stored => stored !! key
                             | None => None
                             end
                   end) /\
    laplacian_matrix (self st') = Some l /\
    (exists (L Lsym W : list (list Z)) (ls lw : loc),
       ext_compute_laplacian_matrix_full Fv (laplacian_method (self st)) kw
         = (L, Lsym, W) /\
       heap st' !! l = Some L /\ heap st' !! r = Some L /\
       laplacian_symmetric (self st') = Some ls /\
       heap st' !! ls = Some Lsym /\
       laplacian_weights (self st') = Some lw /\
       heap st' !! lw = Some W) /\
    X (self st') = X (self st) /\
    adjacency_matrix (self st') = adjacency_matrix (self st) /\
    affinity_matrix (self st') = affinity_matrix (self st).
Proof.
  cbv zeta. split.
  - split; reflexivity.
  - apply (compute_laplacian_matrix_keywords (C := line_collaborators)
             true true {["full_output" := PyBool false]}
             (snd (set_affinity_matrix (C := line_collaborators)
                     [[1; 1]; [1; 1]]%Z new_store))
             0%nat [[1; 1]; [1; 1]]%Z); reflexivity.
Defined.

Lemma compute_laplacian_matrix_derives_upstream_witness :
  let st := store_with_data in
  let A := ext_compute_adjacency_matrix three_points (adjacency_method (self st))
             (merged_kwds (adjacency_kwds (self st)) ∅) in
  let F := ext_compute_affinity_matrix A (affinity_method (self st))
             (merged_kwds (affinity_kwds (self st)) ∅) in
  let L := ext_compute_laplacian_matrix F (laplacian_method (self st))
             (<["full_output" := PyBool false]>
                (merged_kwds (laplacian_kwds (self st)) ∅)) in
  (X (self st) = Some 0%nat /\ heap st !! 0%nat = Some three_points /\
   adjacency_matrix (self st) = None /\ affinity_matrix (self st) = None) /\
  exists (r a f : loc) (st' : store),
    compute_laplacian_matrix false false ∅ st = (inr r, st') /\
    adjacency_matrix (self st') = Some a /\ heap st' !! a = Some A /\
    affinity_matrix (self st') = Some f /\ heap st' !! f = Some F /\
    laplacian_matrix (self st') = Some r /\ heap st' !! r = Some L.
Proof.
  cbv zeta. split.
  - repeat split; reflexivity.
  - apply (compute_laplacian_matrix_derives_upstream (C := line_collaborators)
             ∅ store_with_data 0%nat three_points); reflexivity.
Defined.

Lemma derivation_without_source_fails_witness :
  (X (self new_store) = None /\ adjacency_matrix (self new_store) = None /\
   affinity_matrix (self new_store) = None) /\
  compute_affinity_matrix false ∅ new_store
    = (inl (ValueError NoDataMatrix), new_store) /\
  compute_laplacian_matrix false true ∅ new_store
    = (inl (ValueError NoDataMatrix), new_store).
Proof.
  split.
  - repeat split; reflexivity.
  - apply (derivation_without_source_fails (C := line_collaborators) false true
             ∅ new_store); reflexivity.
Defined.


Lemma setters_reject_invalid_arrays_witness :
  let msg := "Found array with 0 sample(s)" in
  check_array (Collaborators := line_collaborators) [] = inl msg /\
  set_data_matrix [] store_with_data
    = (inl (ValueError (InvalidArray msg)), store_with_data) /\
  set_adjacency_matrix [] store_with_data
    = (inl (ValueError (InvalidArray msg)), store_with_data) /\
  set_affinity_matrix [] store_with_data
    = (inl (ValueError (InvalidArray msg)), store_with_data) /\
  set_laplacian_matrix [] store_with_data
    = (inl (ValueError (InvalidArray msg)), store_with_data).
Proof.
  cbv zeta. split; [reflexivity |].
  apply (setters_reject_invalid_arrays (C := line_collaborators) []
           "Found array with 0 sample(s)" store_with_data).
  reflexivity.
Defined.

End OnTheLineAgain.
